(** * The schema-editor bridge of md-editor: manager and binding hook

    A shallow embedding of
    [src/Bubble/schema-editor/SchemaEditorBridgeManager.ts] and
    [src/Bubble/schema-editor/useSchemaEditorBridge.ts].

    The manager is a JavaScript object with five private fields; its methods
    are embedded as state-passing functions over the pair of the object
    ([this]) and the environment the object talks to: the host SDK
    ([createSchemaEditorBridge] and the cleanup functions it returns), the
    DOM and React roots used by the built-in preview, and the state the
    registered handlers' closures act upon.  The static part of the class
    (the singleton reference) lives one level up, in a store of manager
    objects addressed by allocation index, so that a reference taken before
    [destroy] keeps pointing at the object it was taken from. *)

From stdpp Require Import base gmap strings list functions.

Set Default Proof Using "Type".
Set Warnings "-clear-no-such-hyp".

(** ** JavaScript truthiness of the values the code tests *)

(** [if (s)] for [s : string | null | undefined]: the empty string is falsy. *)
Definition truthy (s : option string) : bool :=
  match s with
  | Some s => negb (String.eqb s EmptyString)
  | None => false
  end.

Section Manager.

(** [W] is the state the handlers close over (component state, whatever a
    custom preview draws on).  [Obj] is the type of schema values that are
    not strings, and [JSON_stringify o n] stands for the built-in
    [JSON.stringify(o, null, n)]. *)
Context {W Obj : Type}.
Variable JSON_stringify : Obj → nat → string.

(** [SchemaValue] of the host SDK, split the way the code splits it:
    [typeof schema === 'string'] or not. *)
Inductive SchemaValue :=
| SchemaString (s : string)
| SchemaObject (o : Obj).

(** What a preview renderer hands back, [(() => void) | void], is an
    [option Teardown]: the function a custom renderer returned, or the
    closure that [createDefaultPreview] builds over [this]. *)
Inductive Teardown :=
| HandlerTeardown (f : W → W)
| DefaultTeardown.

(** [interface BubbleHandler] *)
Record BubbleHandler := {
  getContent : W → string;
  setContent : string → W → W;
  renderPreview : option (SchemaValue → string → W → W * option (W → W))
}.

(** *** The environment *)

(** The element the built-in preview renders:
    [React.createElement(MarkdownEditor, {...})]. *)
Record MarkdownEditor := {
  initValue : string;
  readonly : bool;
  style_padding : nat;
  height : string;
  width : string
}.

(** A [ReactDOM.Root]: the container it was created on, what it shows, and
    whether [unmount] was called on it. *)
Record Root := {
  root_container : string;
  root_view : option MarkdownEditor;
  root_unmounted : bool
}.

Record Env := {
  (** one entry per connection [createSchemaEditorBridge] has made, holding
      the number of times its cleanup function was called; a connection is
      open while that number is 0 *)
  bridges : list nat;
  (** the ids [document.getElementById] finds *)
  document : gset string;
  (** the roots [ReactDOM.createRoot] has made *)
  roots : list Root;
  (** the handlers' state *)
  world : W
}.

Definition set_bridges (b : list nat) (e : Env) : Env :=
  {| bridges := b; document := document e; roots := roots e; world := world e |}.
Definition set_roots (r : list Root) (e : Env) : Env :=
  {| bridges := bridges e; document := document e; roots := r; world := world e |}.
Definition set_world (w : W) (e : Env) : Env :=
  {| bridges := bridges e; document := document e; roots := roots e; world := w |}.

(** [createSchemaEditorBridge({...})]: opens a connection and returns its
    cleanup function, here the number of the connection. *)
Definition createSchemaEditorBridge (e : Env) : nat * Env :=
  (length (bridges e), set_bridges (bridges e ++ [0]) e).

(** Calling the cleanup function of connection [k]. *)
Definition call_cleanup (k : nat) (e : Env) : Env :=
  set_bridges (alter S k (bridges e)) e.

Definition bridge_open (e : Env) (k : nat) : Prop := bridges e !! k = Some 0.

(** Some connection to the host is open. *)
Definition connected (e : Env) : Prop := ∃ k, bridge_open e k.

Definition getElementById (containerId : string) (e : Env) : option string :=
  if decide (containerId ∈ document e) then Some containerId else None.

Definition createRoot (container : string) (e : Env) : nat * Env :=
  (length (roots e),
   set_roots (roots e ++ [{| root_container := container;
                             root_view := None;
                             root_unmounted := false |}]) e).

Definition render (r : nat) (el : MarkdownEditor) (e : Env) : Env :=
  set_roots (alter (λ x, {| root_container := root_container x;
                            root_view := Some el;
                            root_unmounted := root_unmounted x |}) r (roots e)) e.

Definition unmount (r : nat) (e : Env) : Env :=
  set_roots (alter (λ x, {| root_container := root_container x;
                            root_view := None;
                            root_unmounted := true |}) r (roots e)) e.

(** *** The manager object *)

Record SchemaEditorBridgeManager := {
  registry : gmap string BubbleHandler;
  cleanup : option nat;
  enabled : bool;
  previewRoot : option nat;
  currentEditingId : option string
}.

(** The field initialisers of the class: what [new SchemaEditorBridgeManager()] builds. *)
Definition new_manager : SchemaEditorBridgeManager :=
  {| registry := ∅; cleanup := None; enabled := false;
     previewRoot := None; currentEditingId := None |}.

Definition set_registry r (m : SchemaEditorBridgeManager) :=
  {| registry := r; cleanup := cleanup m; enabled := enabled m;
     previewRoot := previewRoot m; currentEditingId := currentEditingId m |}.
Definition set_cleanup c (m : SchemaEditorBridgeManager) :=
  {| registry := registry m; cleanup := c; enabled := enabled m;
     previewRoot := previewRoot m; currentEditingId := currentEditingId m |}.
Definition set_enabled b (m : SchemaEditorBridgeManager) :=
  {| registry := registry m; cleanup := cleanup m; enabled := b;
     previewRoot := previewRoot m; currentEditingId := currentEditingId m |}.
Definition set_previewRoot r (m : SchemaEditorBridgeManager) :=
  {| registry := registry m; cleanup := cleanup m; enabled := enabled m;
     previewRoot := r; currentEditingId := currentEditingId m |}.
Definition set_currentEditingId i (m : SchemaEditorBridgeManager) :=
  {| registry := registry m; cleanup := cleanup m; enabled := enabled m;
     previewRoot := previewRoot m; currentEditingId := i |}.

(** A method runs on [this] and the environment. *)
Definition St : Type := SchemaEditorBridgeManager * Env.

(** [private startBridge()] *)
Definition startBridge (st : St) : St :=
  let '(this, e) := st in
  match cleanup this with
  | Some _ => (this, e)
  | None =>
      let '(k, e') := createSchemaEditorBridge e in
      (set_cleanup (Some k) this, e')
  end.

(** [private stopBridge()] *)
Definition stopBridge (st : St) : St :=
  let '(this, e) := st in
  match cleanup this with
  | Some k => (set_cleanup None this, call_cleanup k e)
  | None => (this, e)
  end.

(** [setEnabled(enabled)] *)
Definition setEnabled (flag : bool) (st : St) : St :=
  let '(this, e) := st in
  let wasEnabled := enabled this in
  let this := set_enabled flag this in
  if flag && negb wasEnabled && bool_decide (0 < size (registry this)) then
    startBridge (this, e)
  else if negb flag && wasEnabled then
    stopBridge (this, e)
  else (this, e).

(** [isEnabled()] *)
Definition isEnabled (st : St) : bool := enabled st.1.

(** [register(id, handler)] *)
Definition register (id : string) (handler : BubbleHandler) (st : St) : St :=
  let '(this, e) := st in
  let this := set_registry (<[id := handler]> (registry this)) this in
  if enabled this then startBridge (this, e) else (this, e).

(** [unregister(id)] *)
Definition unregister (id : string) (st : St) : St :=
  let '(this, e) := st in
  let this := set_registry (delete id (registry this)) this in
  if bool_decide (size (registry this) = 0) then stopBridge (this, e) else (this, e).

(** [getRegistrySize()] *)
Definition getRegistrySize (st : St) : nat := size (registry st.1).

(** [has(id)] *)
Definition has (id : string) (st : St) : bool :=
  bool_decide (is_Some (registry st.1 !! id)).

(** *** The callbacks handed to [createSchemaEditorBridge]

    The three closures of [startBridge] capture [this]; each is a method in
    its own right here. *)

(** [typeof schema === 'string' ? schema : JSON.stringify(schema, null, 2)] *)
Definition schema_content (schema : SchemaValue) : string :=
  match schema with
  | SchemaString s => s
  | SchemaObject o => JSON_stringify o 2
  end.

(** [getSchema: (params) => ...]; [None] is [undefined]. *)
Definition getSchema (params : string) (st : St) : St * option string :=
  let '(this, e) := st in
  match registry this !! params with
  | None => ((set_currentEditingId None this, e), None)
  | Some handler =>
      ((set_currentEditingId (Some params) this, e),
       Some (getContent handler (world e)))
  end.

(** [updateSchema: (schema, params) => ...] *)
Definition updateSchema (schema : SchemaValue) (params : string) (st : St) : St * bool :=
  let '(this, e) := st in
  match registry this !! params with
  | None => ((this, e), false)
  | Some handler =>
      let content := schema_content schema in
      ((this, set_world (setContent handler content (world e)) e), true)
  end.

(** The element [createDefaultPreview] renders. *)
Definition preview_element (content : string) : MarkdownEditor :=
  {| initValue := content; readonly := true; style_padding := 16;
     height := "auto"; width := "100%" |}.

(** [private createDefaultPreview(schema, containerId)] *)
Definition createDefaultPreview (schema : SchemaValue) (containerId : string)
    (st : St) : St * option Teardown :=
  let '(this, e) := st in
  match getElementById containerId e with
  | None => ((this, e), None)
  | Some container =>
      let content := schema_content schema in
      let '(this, e, root) :=
        match previewRoot this with
        | Some root => (this, e, root)
        | None =>
            let '(root, e) := createRoot container e in
            (set_previewRoot (Some root) this, e, root)
        end in
      ((this, render root (preview_element content) e), Some DefaultTeardown)
  end.

(** The closure [createDefaultPreview] returns:
    [() => { if (this.previewRoot) { this.previewRoot.unmount(); this.previewRoot = null; } }] *)
Definition default_teardown (st : St) : St :=
  let '(this, e) := st in
  match previewRoot this with
  | Some root => (set_previewRoot None this, unmount root e)
  | None => (this, e)
  end.

(** Calling a teardown function on the manager that handed it out. *)
Definition call_teardown (t : Teardown) (st : St) : St :=
  match t with
  | HandlerTeardown f => (st.1, set_world (f (world st.2)) st.2)
  | DefaultTeardown => default_teardown st
  end.

(** [renderPreview: (schema, containerId) => ...] *)
Definition bridge_renderPreview (schema : SchemaValue) (containerId : string)
    (st : St) : St * option Teardown :=
  let '(this, e) := st in
  let fallback := createDefaultPreview schema containerId (this, e) in
  if truthy (currentEditingId this) then
    let handler := currentEditingId this ≫= λ id, registry this !! id in
    match handler ≫= renderPreview with
    | Some custom =>
        let '(w, t) := custom schema containerId (world e) in
        ((this, set_world w e), HandlerTeardown <$> t)
    | None => fallback
    end
  else fallback.

(** *** The static side of the class *)

(** [instance] is the static field; [heap] holds every manager object built
    so far, a reference to one being its index. *)
Record Process := {
  instance : option nat;
  heap : list SchemaEditorBridgeManager;
  env : Env
}.

(** [static getInstance()] *)
Definition getInstance (p : Process) : nat * Process :=
  match instance p with
  | Some a => (a, p)
  | None =>
      let a := length (heap p) in
      (a, {| instance := Some a; heap := heap p ++ [new_manager]; env := env p |})
  end.

(** [a.method(...)] for a method that returns nothing. *)
Definition invoke (a : nat) (method : St → St) (p : Process) : Process :=
  match heap p !! a with
  | Some this =>
      let '(this, e) := method (this, env p) in
      {| instance := instance p; heap := <[a := this]> (heap p); env := e |}
  | None => p
  end.

(** [a.method(...)] for a method that only reads. *)
Definition ask {A} (a : nat) (method : St → A) (p : Process) : option A :=
  (λ this, method (this, env p)) <$> heap p !! a.

(** What [destroy] does to the instance before it drops it. *)
Definition destroy_instance (st : St) : St :=
  let '(this, e) := stopBridge st in
  let this := set_registry ∅ this in
  let this := set_currentEditingId None this in
  match previewRoot this with
  | Some root => (set_previewRoot None this, unmount root e)
  | None => (this, e)
  end.

(** [static destroy()] *)
Definition destroy (p : Process) : Process :=
  match instance p with
  | Some a =>
      let p := invoke a destroy_instance p in
      {| instance := None; heap := heap p; env := env p |}
  | None => p
  end.

(** The static field refers to a manager that was built. *)
Definition valid_instance (p : Process) : Prop :=
  ∀ a, instance p = Some a → is_Some (heap p !! a).

(** The process before the first [getInstance()]. *)
Definition new_process (e : Env) : Process :=
  {| instance := None; heap := []; env := e |}.

(** *** Call sequences on one manager *)

Inductive Call :=
| SetEnabled (flag : bool)
| Register (id : string) (handler : BubbleHandler)
| Unregister (id : string).

Definition call (c : Call) (st : St) : St :=
  match c with
  | SetEnabled flag => setEnabled flag st
  | Register id handler => register id handler st
  | Unregister id => unregister id st
  end.

(** The calls of [cs] in order, the first one first. *)
Definition calls (cs : list Call) (st : St) : St := foldl (λ st c, call c st) st cs.

(** The manager holds the cleanup function of every connection that is open,
    and of no other. *)
Definition coherent (st : St) : Prop :=
  ∀ k, bridge_open st.2 k ↔ cleanup st.1 = Some k.

(** The invariant of the data model: a connection is held exactly when the
    manager is enabled and has a handler. *)
Definition bridge_inv (st : St) : Prop :=
  coherent st ∧
  (is_Some (cleanup st.1) ↔ enabled st.1 = true ∧ 0 < size (registry st.1)).

(** "has been registered and not since unregistered", read on the sequence
    of calls made so far. *)
Definition registered_in (cs : list Call) (id : string) : Prop :=
  ∃ before handler after,
    cs = before ++ Register id handler :: after ∧ Unregister id ∉ after.

End Manager.

Arguments SchemaValue : clear implicits.
Arguments Teardown : clear implicits.
Arguments BubbleHandler : clear implicits.
Arguments Env : clear implicits.
Arguments SchemaEditorBridgeManager : clear implicits.
Arguments St : clear implicits.
Arguments Process : clear implicits.
Arguments Call : clear implicits.
Arguments startBridge : simpl never.
Arguments stopBridge : simpl never.

(** ** The binding hook, [useSchemaEditorBridge] *)

Section Hook.

(** [U] is the state the component's own callbacks act upon; every mounted
    hook instance has a number, and the handlers' state is the store of the
    hook instances' cells together with [U]. *)
Context {U Obj : Type}.

(** Modelled from the spec: [useRefState] (imported from [./useRefState],
    which is not in src/): "a mutable cell alongside the state, that is
    updated synchronously on write, not deferred to the next render/tick";
    "two co-located storage locations updated atomically on write - one for
    change-notification/rerender, one for synchronous read-back".
    [rs_state] is the state as the last render saw it, [rs_next] the value
    written to the state since then, [rs_ref] the cell ([contentRef.current]). *)
Record RefState := {
  rs_state : string;
  rs_next : option string;
  rs_ref : string
}.

(** Modelled from the spec: [useRefState(initialContent)] at the first render. *)
Definition useRefState_first (initial : string) : RefState :=
  {| rs_state := initial; rs_next := None; rs_ref := initial |}.

(** Modelled from the spec: the setter [useRefState] returns; both locations
    are written at once. *)
Definition setRefState (v : string) (c : RefState) : RefState :=
  {| rs_state := rs_state c; rs_next := Some v; rs_ref := v |}.

(** Modelled from the spec: [useRefState] at a later render, which sees the
    state last written. *)
Definition useRefState_next (c : RefState) : RefState :=
  {| rs_state := default (rs_state c) (rs_next c); rs_next := None; rs_ref := rs_ref c |}.

(** The cells of one hook instance: [contentRef] with its state, and
    [onContentChangeRef = useLatest(onContentChange)]. *)
Record HookInstance := {
  contentCell : RefState;
  onContentChangeRef : option (string → U → U)
}.

Record World := {
  hooks : nat → HookInstance;
  user : U
}.

Definition Renderer : Type :=
  SchemaValue Obj → string → World → World * option (World → World).

(** [interface UseSchemaEditorBridgeConfig] *)
Record UseSchemaEditorBridgeConfig := {
  config_enabled : option bool;
  config_onContentChange : option (string → U → U);
  config_renderPreview : option Renderer
}.

Definition set_contentCell (c : RefState) (h : HookInstance) : HookInstance :=
  {| contentCell := c; onContentChangeRef := onContentChangeRef h |}.

Definition update_hook (i : nat) (f : HookInstance → HookInstance) (w : World) : World :=
  {| hooks := <[i := f (hooks w i)]> (hooks w); user := user w |}.

(** [setContentInternal], the setter of [useRefState], of hook instance [i]. *)
Definition setContentInternal (i : nat) (v : string) (w : World) : World :=
  update_hook i (λ h, set_contentCell (setRefState v (contentCell h)) h) w.

(** [const setContent = (newContent) => {...}] of hook instance [i] *)
Definition hook_setContent (i : nat) (newContent : string) (w : World) : World :=
  let w := setContentInternal i newContent w in
  match onContentChangeRef (hooks w i) with
  | Some onContentChange =>
      {| hooks := hooks w; user := onContentChange newContent (user w) |}
  | None => w
  end.

(** [content], as the hook returned it at its last render. *)
Definition hook_content (i : nat) (w : World) : string :=
  rs_state (contentCell (hooks w i)).

(** [const handler: BubbleHandler = {...}] of hook instance [i];
    [renderPreviewRef_current] is [renderPreviewRef.current] as read when the
    effect runs. *)
Definition hook_handler (i : nat) (renderPreviewRef_current : option Renderer) :
    BubbleHandler World Obj :=
  {| getContent := λ w, rs_ref (contentCell (hooks w i));
     setContent := hook_setContent i;
     renderPreview := renderPreviewRef_current |}.

(** The second [useEffect] callback, run for hook instance [i]; it returns
    the cleanup [() => manager.unregister(id)] as the pair of [manager] and
    [id], or nothing. *)
Definition registration_effect (i : nat) (id : option string) (enabled : bool)
    (renderPreviewRef_current : option Renderer) (p : Process World Obj) :
    Process World Obj * option (nat * string) :=
  let '(manager, p) := getInstance p in
  match id with
  | Some s =>
      if negb (truthy id) || negb enabled then
        if truthy id && default false (ask manager (has s) p) then
          (invoke manager (unregister s) p, None)
        else (p, None)
      else
        let p := invoke manager (setEnabled true) p in
        let handler := hook_handler i renderPreviewRef_current in
        let p := invoke manager (register s handler) p in
        (p, Some (manager, s))
  | None => (p, None)
  end.

(** Calling the cleanup of the registration effect. *)
Definition effect_cleanup (c : option (nat * string)) (p : Process World Obj) :
    Process World Obj :=
  match c with
  | Some (manager, id) => invoke manager (unregister id) p
  | None => p
  end.

(** *** React's side: renders and effects of the mounted hook instances *)

(** What React keeps for a mounted hook instance: the dependencies of its
    two effects at the last render, and the cleanup of the registration
    effect. *)
Record Fiber := {
  dep_initialContent : string;
  dep_id : option string;
  dep_enabled : bool;
  fiber_cleanup : option (nat * string)
}.

Record App := {
  process : Process World Obj;
  fibers : gmap nat Fiber
}.

Definition on_world (f : World → World) (p : Process World Obj) : Process World Obj :=
  {| instance := instance p; heap := heap p; env := set_world (f (world (env p))) (env p) |}.

(** The body of the hook up to its effects, at the first render or a later one. *)
Definition hook_render (first : bool) (i : nat) (initialContent : string)
    (config : option UseSchemaEditorBridgeConfig) (w : World) : World :=
  update_hook i (λ h,
    {| contentCell := if first then useRefState_first initialContent
                      else useRefState_next (contentCell h);
       onContentChangeRef := config ≫= config_onContentChange |}) w.

(** [const { enabled = true, ... } = config || {}] *)
Definition enabled_of (config : option UseSchemaEditorBridgeConfig) : bool :=
  default true (config ≫= config_enabled).

Definition mount (i : nat) (id : option string) (initialContent : string)
    (config : option UseSchemaEditorBridgeConfig) (app : App) : App :=
  let enabled := enabled_of config in
  let p := on_world (hook_render true i initialContent config) (process app) in
  let p := on_world (setContentInternal i initialContent) p in
  let '(p, c) := registration_effect i id enabled (config ≫= config_renderPreview) p in
  {| process := p;
     fibers := <[i := {| dep_initialContent := initialContent; dep_id := id;
                         dep_enabled := enabled; fiber_cleanup := c |}]> (fibers app) |}.

Definition rerender (i : nat) (id : option string) (initialContent : string)
    (config : option UseSchemaEditorBridgeConfig) (app : App) : App :=
  match fibers app !! i with
  | None => app
  | Some f =>
      let enabled := enabled_of config in
      let p := on_world (hook_render false i initialContent config) (process app) in
      let same := bool_decide (dep_id f = id ∧ dep_enabled f = enabled) in
      let p := if same then p else effect_cleanup (fiber_cleanup f) p in
      let p := if bool_decide (dep_initialContent f = initialContent) then p
               else on_world (setContentInternal i initialContent) p in
      let '(p, c) :=
        if same then (p, fiber_cleanup f)
        else registration_effect i id enabled (config ≫= config_renderPreview) p in
      {| process := p;
         fibers := <[i := {| dep_initialContent := initialContent; dep_id := id;
                             dep_enabled := enabled; fiber_cleanup := c |}]> (fibers app) |}
  end.

Definition unmount_hook (i : nat) (app : App) : App :=
  match fibers app !! i with
  | None => app
  | Some f =>
      {| process := effect_cleanup (fiber_cleanup f) (process app);
         fibers := delete i (fibers app) |}
  end.

(** What can happen to the hook instances of an application. *)
Inductive HookEvent :=
| Mount (i : nat) (id : option string) (initialContent : string)
    (config : option UseSchemaEditorBridgeConfig)
| Rerender (i : nat) (id : option string) (initialContent : string)
    (config : option UseSchemaEditorBridgeConfig)
| Unmount (i : nat)
| SetContent (i : nat) (newContent : string).

Definition hook_event (ev : HookEvent) (app : App) : App :=
  match ev with
  | Mount i id initialContent config => mount i id initialContent config app
  | Rerender i id initialContent config => rerender i id initialContent config app
  | Unmount i => unmount_hook i app
  | SetContent i newContent =>
      {| process := on_world (hook_setContent i newContent) (process app);
         fibers := fibers app |}
  end.

Definition hook_events (evs : list HookEvent) (app : App) : App :=
  foldl (λ app ev, hook_event ev app) app evs.

End Hook.

Arguments World : clear implicits.
Arguments HookInstance : clear implicits.
Arguments Renderer : clear implicits.
Arguments UseSchemaEditorBridgeConfig : clear implicits.
Arguments App : clear implicits.
Arguments HookEvent : clear implicits.

(** ** Everything that happens to one manager *)

Section Events.

Context {W Obj : Type}.
Variable JSON_stringify : Obj → nat → string.

(** Besides the calls of its methods, a manager sees the host call one of
    the three callbacks of [startBridge], and the teardown functions its
    preview callback handed out being called. *)
Inductive Event :=
| Method (c : Call W Obj)
| HostQuery (params : string)
| HostUpdate (schema : SchemaValue Obj) (params : string)
| HostPreview (schema : SchemaValue Obj) (containerId : string)
| CallTeardown (t : Teardown W).

Definition event (ev : Event) (st : St W Obj) : St W Obj :=
  match ev with
  | Method c => call c st
  | HostQuery params => (getSchema params st).1
  | HostUpdate schema params => (updateSchema JSON_stringify schema params st).1
  | HostPreview schema containerId =>
      (bridge_renderPreview JSON_stringify schema containerId st).1
  | CallTeardown t => call_teardown t st
  end.

Definition events (evs : list Event) (st : St W Obj) : St W Obj :=
  foldl (λ st ev, event ev st) st evs.

(** The root the manager keeps for its preview exists and is mounted. *)
Definition preview_root_live (st : St W Obj) : Prop :=
  ∀ root, previewRoot st.1 = Some root →
    ∃ x, roots st.2 !! root = Some x ∧ root_unmounted x = false.

End Events.

Arguments Event : clear implicits.

(** ** Everything that happens to the singleton of an application *)

Section AppEvents.

Context {U Obj : Type}.

(** The events of the hook instances, [SchemaEditorBridgeManager.destroy()],
    and a method called on [SchemaEditorBridgeManager.getInstance()]. *)
Inductive AppEvent :=
| OfHook (ev : HookEvent U Obj)
| Destroy
| OnInstance (c : Call (World U) Obj).

Definition app_event (ev : AppEvent) (app : App U Obj) : App U Obj :=
  match ev with
  | OfHook ev => hook_event ev app
  | Destroy => {| process := destroy (process app); fibers := fibers app |}
  | OnInstance c =>
      let '(manager, p) := getInstance (process app) in
      {| process := invoke manager (call c) p; fibers := fibers app |}
  end.

Definition app_events (evs : list AppEvent) (app : App U Obj) : App U Obj :=
  foldl (λ app ev, app_event ev app) app evs.

(** The application before anything is mounted. *)
Definition new_app (e : Env (World U)) : App U Obj :=
  {| process := new_process e; fibers := ∅ |}.

(** What holds of the manager objects of a process: the singleton, if there
    is one, keeps [bridge_inv]; every other object (one that [destroy]
    dropped) has an empty registry and holds no connection; and with no
    singleton no connection is open. *)
Definition process_inv (p : Process (World U) Obj) : Prop :=
  valid_instance p ∧
  (∀ a this, heap p !! a = Some this → instance p ≠ Some a →
     registry this = ∅ ∧ cleanup this = None) ∧
  (∀ a this, instance p = Some a → heap p !! a = Some this →
     bridge_inv (this, env p)) ∧
  (instance p = None → ¬ connected (env p)).

End AppEvents.

Arguments AppEvent : clear implicits.

(** ** The edit log of the demo page, [docs/demos/bubble/chrome-extension-demo.tsx]

    [handleContentChange] slices its strings, so a string is here the
    sequence of its UTF-16 code units. *)

Definition jsstring : Type := list N.

(** [content.slice(0, 50) + (content.length > 50 ? '...' : '')] *)
Definition edit_preview (content : jsstring) : jsstring :=
  take 50 content ++ (if bool_decide (50 < length content) then [46; 46; 46]%N else []).

(** The template literal of the log line; [time] is what
    [new Date().toLocaleTimeString()] gave. *)
Definition edit_line (time id content : jsstring) : jsstring :=
  [91%N] ++ time ++ [93; 32; 28040; 24687; 32]%N ++ id ++
  [32; 24050; 26356; 26032; 58; 32; 34]%N ++ edit_preview content ++ [34%N].

(** [handleContentChange(id)(content)], as the update it passes to
    [setEditLogs]: [(prev) => [line, ...prev.slice(0, 9)]]. *)
Definition handleContentChange (time id content : jsstring)
    (prev : list jsstring) : list jsstring :=
  edit_line time id content :: take 9 prev.

(** The log after the changes [cs] (time, id, content), the first one first. *)
Definition edit_logs (cs : list (jsstring * jsstring * jsstring))
    (logs : list jsstring) : list jsstring :=
  foldl (λ logs c, handleContentChange c.1.1 c.1.2 c.2 logs) logs cs.

(** ** Small concrete inputs

    One component whose content is a string, as in the manager's tests, and
    one mounted hook instance whose [onContentChange] logs what it is given. *)

(** [JSON.stringify(b, null, n)] on the booleans. *)
Definition stringify_bool (b : bool) (indent : nat) : string :=
  if b then "true" else "false".

(** [{ getContent: () => content, setContent: (c) => { content = c } }] *)
Definition plain_handler : BubbleHandler string bool :=
  {| getContent := λ content, content;
     setContent := λ c _, c;
     renderPreview := None |}.

(** The same with a custom preview, which writes the container id into the
    content and returns a teardown that empties it. *)
Definition custom_handler : BubbleHandler string bool :=
  {| getContent := λ content, content;
     setContent := λ c _, c;
     renderPreview :=
       Some (λ _ containerId _, (containerId, Some (λ _, EmptyString))) |}.

(** A page with one element, of id [preview], and content [X]. *)
Definition page : Env string :=
  {| bridges := []; document := {["preview"]}; roots := []; world := "X" |}.

(** The same page once a connection has been opened. *)
Definition page_connected : Env string :=
  {| bridges := [0]; document := {["preview"]}; roots := []; world := "X" |}.

(** An enabled manager with handlers at [a] (plain) and [c] (custom preview),
    holding connection 0. *)
Definition manager_ac : SchemaEditorBridgeManager string bool :=
  {| registry := <["a" := plain_handler]> {["c" := custom_handler]};
     cleanup := Some 0; enabled := true;
     previewRoot := None; currentEditingId := Some "c" |}.

(** A disabled manager with the same handlers and no connection. *)
Definition manager_off : SchemaEditorBridgeManager string bool :=
  {| registry := <["a" := plain_handler]> {["c" := custom_handler]};
     cleanup := None; enabled := false;
     previewRoot := None; currentEditingId := None |}.

(** The hook instances before any is mounted; [onContentChange] will log. *)
Definition hooks_page : Env (World (list string)) :=
  {| bridges := []; document := {["preview"]}; roots := [];
     world := {| hooks := λ _, {| contentCell := useRefState_first EmptyString;
                                  onContentChangeRef := None |};
                 user := [] |} |}.

Definition logging_config : UseSchemaEditorBridgeConfig (list string) bool :=
  {| config_enabled := None;
     config_onContentChange := Some (λ content log, log ++ [content]);
     config_renderPreview := None |}.

(** Hook instance 0 mounted with id [b] and initial content [hello]. *)
Definition app_b : App (list string) bool :=
  mount 0 (Some "b") "hello" (Some logging_config)
    {| process := new_process hooks_page; fibers := ∅ |}.

(** * Properties of the embedding *)

Lemma truthy_Some s : truthy (Some s) = true ↔ s ≠ EmptyString.
Proof.
  simpl. rewrite negb_true_iff. split.
  - intros H ->. by rewrite String.eqb_refl in H.
  - intros H. by apply String.eqb_neq.
Qed.

Section ManagerFacts.

Context {W Obj : Type}.
Implicit Types (this : SchemaEditorBridgeManager W Obj) (e : Env W).
Implicit Types (st : St W Obj) (handler : BubbleHandler W Obj).

(** ** The host connections *)

Lemma bridge_open_create e k :
  bridge_open (createSchemaEditorBridge e).2 k ↔
  bridge_open e k ∨ k = length (bridges e).
Proof.
  unfold bridge_open, createSchemaEditorBridge; simpl.
  destruct (decide (k < length (bridges e))) as [Hlt|Hge].
  - rewrite lookup_app_l by done. split; [by left|].
    intros [?| ->]; [done|lia].
  - rewrite lookup_app_r by lia. split.
    + intros H. right.
      destruct (k - length (bridges e)) as [|n] eqn:E; [lia|].
      by destruct n.
    + intros [H| ->].
      * apply lookup_lt_Some in H. lia.
      * by rewrite Nat.sub_diag.
Qed.

Lemma bridge_open_cleanup e k j :
  bridge_open (call_cleanup k e) j ↔ bridge_open e j ∧ j ≠ k.
Proof.
  unfold bridge_open, call_cleanup; simpl.
  destruct (decide (k = j)) as [->|Hne].
  - rewrite list_lookup_alter_eq. split.
    + destruct (bridges e !! j); simpl; congruence.
    + by intros [_ ?].
  - rewrite list_lookup_alter_ne by done. naive_solver.
Qed.

Lemma bridge_open_fresh e : ¬ bridge_open e (length (bridges e)).
Proof.
  unfold bridge_open. intros H. apply lookup_lt_Some in H. lia.
Qed.

(** ** [startBridge] and [stopBridge] *)

Lemma startBridge_fields st :
  registry (startBridge st).1 = registry st.1 ∧
  enabled (startBridge st).1 = enabled st.1 ∧
  previewRoot (startBridge st).1 = previewRoot st.1 ∧
  currentEditingId (startBridge st).1 = currentEditingId st.1.
Proof. destruct st as [this e]. unfold startBridge; simpl. by destruct (cleanup this). Qed.

Lemma stopBridge_fields st :
  registry (stopBridge st).1 = registry st.1 ∧
  enabled (stopBridge st).1 = enabled st.1 ∧
  previewRoot (stopBridge st).1 = previewRoot st.1 ∧
  currentEditingId (stopBridge st).1 = currentEditingId st.1.
Proof. destruct st as [this e]. unfold stopBridge; simpl. by destruct (cleanup this). Qed.

Lemma startBridge_cleanup st : is_Some (cleanup (startBridge st).1).
Proof.
  destruct st as [this e]. unfold startBridge; simpl.
  destruct (cleanup this) eqn:E; simpl; eauto.
Qed.

Lemma stopBridge_cleanup st : cleanup (stopBridge st).1 = None.
Proof.
  destruct st as [this e]. unfold stopBridge; simpl.
  by destruct (cleanup this) eqn:E.
Qed.

Lemma startBridge_coherent st : coherent st → coherent (startBridge st).
Proof.
  destruct st as [this e]. unfold coherent, startBridge. simpl. intros Hc.
  destruct (cleanup this) eqn:E; simpl; [by rewrite E|].
  intros k. pose proof (bridge_open_create e k) as Hk. simpl in Hk.
  rewrite Hk, Hc. naive_solver.
Qed.

Lemma stopBridge_coherent st : coherent st → coherent (stopBridge st).
Proof.
  destruct st as [this e]. unfold coherent, stopBridge. simpl. intros Hc.
  destruct (cleanup this) as [k0|] eqn:E; simpl; [|by rewrite E].
  intros k. rewrite bridge_open_cleanup, Hc. naive_solver.
Qed.

(** [startBridge] is idempotent: on a manager that holds a connection it
    does nothing. *)
Lemma startBridge_idemp st : startBridge (startBridge st) = startBridge st.
Proof.
  destruct st as [this e]. unfold startBridge; simpl.
  destruct (cleanup this) eqn:E; simpl; by rewrite ?E.
Qed.

(** ** The invariant *)

Lemma bridge_inv_new e :
  ¬ connected e → bridge_inv ((new_manager, e) : St W Obj).
Proof.
  intros Hno. split.
  - intros k. simpl. split; [|done]. intros H. destruct Hno. by exists k.
  - simpl. split; [by intros [? ?]|]. by intros [? _].
Qed.

Lemma setEnabled_inv flag st : bridge_inv st → bridge_inv (setEnabled flag st).
Proof.
  destruct st as [this e]. intros [Hc Hi]. simpl in Hi.
  unfold setEnabled.
  destruct flag, (enabled this) eqn:En; simpl.
  - split; [done|]. by simpl.
  - case_bool_decide as Hsz.
    + split; [by apply startBridge_coherent|].
      destruct (startBridge_fields (set_enabled true this, e)) as (Hr & He & _).
      simpl in Hr, He. rewrite Hr, He. split; [done|].
      intros _. apply startBridge_cleanup.
    + split; [done|]. simpl. split.
      * intros Hs. apply Hi in Hs as [? _]. done.
      * intros [_ ?]. lia.
  - split; [by apply stopBridge_coherent|].
    rewrite stopBridge_cleanup.
    destruct (stopBridge_fields (set_enabled false this, e)) as (_ & He & _).
    simpl in He. rewrite He. split; [by intros [? ?]|]. by intros [? _].
  - split; [done|]. by simpl.
Qed.

Lemma register_inv id handler st : bridge_inv st → bridge_inv (register id handler st).
Proof.
  destruct st as [this e]. intros [Hc Hi]. simpl in Hi.
  unfold register. simpl.
  assert (0 < size (<[id:=handler]> (registry this))) as Hpos.
  { apply Nat.neq_0_lt_0, map_size_non_empty_iff, insert_non_empty. }
  destruct (enabled this) eqn:En.
  - split; [by apply startBridge_coherent|].
    destruct (startBridge_fields (set_registry (<[id:=handler]> (registry this)) this, e))
      as (Hr & He & _).
    simpl in Hr, He. rewrite Hr, He. split; [by rewrite En|].
    intros _. apply startBridge_cleanup.
  - split; [done|]. simpl. rewrite En. split.
    + intros Hs. apply Hi in Hs as [? _]. done.
    + by intros [? _].
Qed.

Lemma unregister_inv id st : bridge_inv st → bridge_inv (unregister id st).
Proof.
  destruct st as [this e]. intros [Hc Hi]. simpl in Hi.
  unfold unregister. simpl. case_bool_decide as Hsz.
  - split; [by apply stopBridge_coherent|].
    rewrite stopBridge_cleanup.
    destruct (stopBridge_fields (set_registry (delete id (registry this)) this, e))
      as (Hr & _).
    simpl in Hr. rewrite Hr, Hsz. split; [by intros [? ?]|]. intros [_ ?]. lia.
  - split; [done|]. simpl. split.
    + intros Hs. apply Hi in Hs as [? _]. split; [done|lia].
    + intros [He Hpos]. apply Hi. split; [done|].
      pose proof (map_size_delete id (registry this)) as Hd.
      destruct (registry this !! id); simpl in Hd; unfold Datatypes.id in Hd; lia.
Qed.

Lemma call_inv c st : bridge_inv st → bridge_inv (call c st).
Proof.
  destruct c; simpl; auto using setEnabled_inv, register_inv, unregister_inv.
Qed.

Lemma calls_inv cs st : bridge_inv st → bridge_inv (calls cs st).
Proof.
  revert st. induction cs as [|c cs IH]; intros st Hst; [done|].
  simpl. apply IH. by apply call_inv.
Qed.

Lemma bridge_inv_connected st :
  bridge_inv st →
  (connected st.2 ↔ enabled st.1 = true ∧ 0 < getRegistrySize st) ∧
  (∀ k, bridge_open st.2 k ↔ cleanup st.1 = Some k).
Proof.
  intros [Hc Hi]. split; [|done]. rewrite <-Hi. unfold connected. split.
  - intros [k Hk]. exists k. by apply Hc.
  - intros [k Hk]. exists k. by apply Hc.
Qed.

(** C1.  Start from a fresh manager, in an environment where no connection
    to the host is open, and make any sequence of calls to [setEnabled],
    [register] and [unregister].  After every call of the sequence (after
    its first [n] calls, for every [n]) a connection to the host is open if
    and only if the enabled flag is true and the registry is not empty; the
    open connection is the one whose cleanup function the manager holds. *)
Theorem connection_open_iff_enabled_and_registered
    (e0 : Env W) (cs : list (Call W Obj)) (n : nat) :
  ¬ connected e0 →
  let st := calls (take n cs) (new_manager, e0) in
  (connected st.2 ↔ isEnabled st = true ∧ 0 < getRegistrySize st) ∧
  (∀ k, bridge_open st.2 k ↔ cleanup st.1 = Some k).
Proof.
  intros Hno st. apply bridge_inv_connected.
  subst st. apply calls_inv. by apply bridge_inv_new.
Qed.

(** ** [setEnabled] *)

Lemma set_enabled_same this : set_enabled (enabled this) this = this.
Proof. by destruct this. Qed.

(** C4.  [setEnabled] acts on edges only.  Called with the value the flag
    already has it changes nothing, neither in the manager nor in the
    environment.  From false to true it opens a connection exactly when the
    registry is not empty, and then only if the manager holds none (with one
    held, nothing but the flag changes).  From true to false it calls the
    cleanup function of the connection the manager holds, if it holds one,
    and holds none afterwards. *)
Theorem setEnabled_acts_on_edges (flag : bool) this e :
  (flag = enabled this → setEnabled flag (this, e) = (this, e)) ∧
  (enabled this = false →
     let st' := setEnabled true (this, e) in
     isEnabled st' = true ∧
     (0 < size (registry this) →
        (∀ k, cleanup this = Some k → st' = (set_enabled true this, e)) ∧
        (cleanup this = None →
           st' = (set_cleanup (Some (length (bridges e))) (set_enabled true this),
                  (createSchemaEditorBridge e).2) ∧
           bridge_open st'.2 (length (bridges e)))) ∧
     (size (registry this) = 0 → st' = (set_enabled true this, e))) ∧
  (enabled this = true →
     let st' := setEnabled false (this, e) in
     isEnabled st' = false ∧ cleanup st'.1 = None ∧
     (∀ k, cleanup this = Some k →
        st' = (set_cleanup None (set_enabled false this), call_cleanup k e) ∧
        ¬ bridge_open st'.2 k) ∧
     (cleanup this = None → st' = (set_enabled false this, e))).
Proof.
  split; [|split].
  - intros ->. unfold setEnabled.
    rewrite set_enabled_same.
    by destruct (enabled this).
  - intros En. unfold setEnabled, isEnabled. rewrite En. simpl.
    case_bool_decide as Hsz.
    + split; [|split; [|lia]].
      * by destruct (startBridge_fields (set_enabled true this, e)) as (_ & -> & _).
      * intros _. unfold startBridge. simpl. split.
        -- by intros k ->.
        -- intros ->. split; [done|]. simpl.
           apply (bridge_open_create e). by right.
    + split; [done|]. split; [lia|done].
  - intros En. unfold setEnabled, isEnabled. rewrite En. simpl.
    split; [|split; [|split]].
    + by destruct (stopBridge_fields (set_enabled false this, e)) as (_ & -> & _).
    + apply stopBridge_cleanup.
    + intros k Hk. unfold stopBridge. simpl. rewrite Hk. split; [done|].
      simpl. rewrite bridge_open_cleanup. naive_solver.
    + intros Hk. unfold stopBridge. simpl. by rewrite Hk.
Qed.

(** ** The registry *)

Lemma registry_call c st :
  registry (call c st).1 =
  match c with
  | SetEnabled _ => registry st.1
  | Register id handler => <[id := handler]> (registry st.1)
  | Unregister id => delete id (registry st.1)
  end.
Proof.
  destruct st as [this e]. destruct c as [flag|id handler|id]; simpl.
  - unfold setEnabled.
    destruct (flag && negb (enabled this) && _); [apply startBridge_fields|].
    destruct (negb flag && enabled this); [apply stopBridge_fields|done].
  - unfold register. simpl.
    destruct (enabled this); [apply startBridge_fields|done].
  - unfold unregister. simpl.
    case_bool_decide; [apply stopBridge_fields|done].
Qed.

Lemma calls_snoc cs c st : calls (cs ++ [c]) st = call c (calls cs st).
Proof. unfold calls. by rewrite foldl_snoc. Qed.

Lemma registered_in_nil id : ¬ registered_in ([] : list (Call W Obj)) id.
Proof. intros (before & handler & after & H & _). by destruct before. Qed.

Lemma registered_in_snoc cs c id :
  registered_in (cs ++ [c]) id ↔
  (∃ handler, c = Register id handler) ∨
  (registered_in cs id ∧ c ≠ Unregister id).
Proof.
  split.
  - intros (before & handler & after & Heq & Hnot).
    destruct after as [|x after _] using rev_ind.
    + apply app_inj_tail in Heq as [_ ->]. left. eauto.
    + right. rewrite app_comm_cons, app_assoc in Heq.
      apply app_inj_tail in Heq as [-> ->].
      split.
      * exists before, handler, after. split; [done|]. set_solver.
      * intros ->. set_solver.
  - intros [[handler ->]|[(before & handler & after & -> & Hnot) Hc]].
    + exists cs, handler, []. split; [done|]. set_solver.
    + exists before, handler, (after ++ [c]). split.
      * by rewrite <-app_assoc.
      * set_solver.
Qed.

Lemma registry_calls (e0 : Env W) (cs : list (Call W Obj)) id :
  is_Some (registry (calls cs (new_manager, e0)).1 !! id) ↔ registered_in cs id.
Proof.
  induction cs as [|c cs IH] using rev_ind.
  - simpl. rewrite lookup_empty. split; [by intros [? ?]|].
    intros H. by apply registered_in_nil in H.
  - rewrite calls_snoc, registry_call, registered_in_snoc, <-IH.
    destruct c as [flag|id' handler|id'].
    + split; [|naive_solver]. intros H. right. done.
    + destruct (decide (id' = id)) as [->|Hne].
      * rewrite lookup_insert_eq. split; [|eauto]. intros _. left. eauto.
      * rewrite lookup_insert_ne by done. split; [|naive_solver].
        intros H. right. done.
    + destruct (decide (id' = id)) as [->|Hne].
      * rewrite lookup_delete_eq. split; [by intros [? ?]|]. naive_solver.
      * rewrite lookup_delete_ne by done. split; [|naive_solver].
        intros H. right. split; [done|]. congruence.
Qed.

(** C5.  After any sequence of calls, [getRegistrySize()] is the number of
    distinct identifiers that have been registered and not since
    unregistered: the size of the set of the identifiers [registered_in] the
    sequence.  Registering an identifier the registry has replaces its
    handler and leaves the size as it is, so registering the same identifier
    twice counts it once. *)
Theorem getRegistrySize_counts_registered (e0 : Env W) (cs : list (Call W Obj)) :
  let st := calls cs (new_manager, e0) in
  (∃ ids : gset string,
     (∀ id, id ∈ ids ↔ registered_in cs id) ∧ getRegistrySize st = size ids) ∧
  (∀ id handler,
     registry (register id handler st).1 !! id = Some handler ∧
     (has id st = true →
        getRegistrySize (register id handler st) = getRegistrySize st) ∧
     (has id st = false →
        ∀ handler',
          getRegistrySize (register id handler' (register id handler st)) =
          S (getRegistrySize st))).
Proof.
  intros st. split.
  - exists (dom (registry st.1)). split.
    + intros id. rewrite elem_of_dom. apply registry_calls.
    + unfold getRegistrySize. by rewrite size_dom.
  - intros id handler.
    pose proof (registry_call (Register id handler) st) as Hr. simpl in Hr.
    split; [|split].
    + by rewrite Hr, lookup_insert_eq.
    + unfold has, getRegistrySize. rewrite Hr.
      intros [x Hx]%bool_decide_eq_true. by apply map_size_insert_Some.
    + unfold has, getRegistrySize. intros Hn%bool_decide_eq_false handler'.
      pose proof (registry_call (Register id handler') (register id handler st)) as Hr'.
      simpl in Hr'. rewrite Hr', Hr, insert_insert_eq.
      apply map_size_insert_None. by apply eq_None_not_Some.
Qed.

End ManagerFacts.

Section CallbackFacts.

Context {W Obj : Type}.
Variable JSON_stringify : Obj → nat → string.
Implicit Types (this : SchemaEditorBridgeManager W Obj) (e : Env W).
Implicit Types (st : St W Obj) (handler : BubbleHandler W Obj).
Implicit Types (schema : SchemaValue Obj).

(** ** The content query and the content update *)

(** C2.  For an identifier the registry has, the content query records it as
    the current-editing identifier and returns the string its handler's
    [getContent] produces; for an identifier the registry does not have it
    returns [undefined], clears the current-editing identifier, and leaves
    the registry and its size as they were.  Nothing else changes in either
    case. *)
Theorem getSchema_by_id (id : string) this e :
  (∀ handler, registry this !! id = Some handler →
     let '(st', r) := getSchema id (this, e) in
     r = Some (getContent handler (world e)) ∧
     currentEditingId st'.1 = Some id ∧
     st' = (set_currentEditingId (Some id) this, e)) ∧
  (registry this !! id = None →
     let '(st', r) := getSchema id (this, e) in
     r = None ∧
     currentEditingId st'.1 = None ∧
     registry st'.1 = registry this ∧
     getRegistrySize st' = getRegistrySize (this, e) ∧
     st' = (set_currentEditingId None this, e)).
Proof.
  split.
  - intros handler H. unfold getSchema. by rewrite H.
  - intros H. unfold getSchema. by rewrite H.
Qed.

(** C3.  The content update returns [false], and changes nothing, for an
    identifier the registry does not have.  For a registered identifier it
    calls the handler's [setContent] once, with the value itself when the
    value is a string and with [JSON.stringify(value, null, 2)] otherwise,
    and returns [true]; the manager itself is unchanged. *)
Theorem updateSchema_by_id schema (id : string) this e :
  (registry this !! id = None →
     updateSchema JSON_stringify schema id (this, e) = ((this, e), false)) ∧
  (∀ handler, registry this !! id = Some handler →
     updateSchema JSON_stringify schema id (this, e) =
       ((this,
         set_world
           (setContent handler
              match schema with
              | SchemaString s => s
              | SchemaObject o => JSON_stringify o 2
              end (world e)) e),
        true)).
Proof.
  split.
  - intros H. unfold updateSchema. by rewrite H.
  - intros handler H. unfold updateSchema. rewrite H. by destruct schema.
Qed.

(** ** The preview *)

Lemma getElementById_None containerId e :
  getElementById containerId e = None ↔ containerId ∉ document e.
Proof. unfold getElementById. case_decide; naive_solver. Qed.

Lemma getElementById_Some containerId e :
  containerId ∈ document e → getElementById containerId e = Some containerId.
Proof. unfold getElementById. case_decide; naive_solver. Qed.

Lemma createDefaultPreview_None schema containerId this e :
  getElementById containerId e = None →
  createDefaultPreview JSON_stringify schema containerId (this, e) = ((this, e), None).
Proof. intros H. unfold createDefaultPreview. by rewrite H. Qed.

(** C9.  When [document.getElementById(containerId)] finds nothing, the
    built-in preview does nothing: the manager and the environment are as
    before (no root is created, none is rendered into) and no teardown
    function is returned. *)
Theorem createDefaultPreview_missing_container schema (containerId : string) this e :
  getElementById containerId e = None →
  createDefaultPreview JSON_stringify schema containerId (this, e) = ((this, e), None).
Proof. apply createDefaultPreview_None. Qed.

Lemma createDefaultPreview_reuse schema containerId this e root :
  containerId ∈ document e →
  previewRoot this = Some root →
  createDefaultPreview JSON_stringify schema containerId (this, e) =
    ((this, render root (preview_element (schema_content JSON_stringify schema)) e),
     Some DefaultTeardown).
Proof.
  intros Hc Hr. unfold createDefaultPreview.
  rewrite getElementById_Some by done. simpl. by rewrite Hr.
Qed.

Lemma createDefaultPreview_create schema containerId this e :
  containerId ∈ document e →
  previewRoot this = None →
  createDefaultPreview JSON_stringify schema containerId (this, e) =
    ((set_previewRoot (Some (length (roots e))) this,
      render (length (roots e)) (preview_element (schema_content JSON_stringify schema))
        (createRoot containerId e).2),
     Some DefaultTeardown).
Proof.
  intros Hc Hr. unfold createDefaultPreview.
  rewrite getElementById_Some by done. simpl. by rewrite Hr.
Qed.

Lemma roots_render_new containerId el e :
  roots (render (length (roots e)) el (createRoot containerId e).2) =
  roots e ++ [{| root_container := containerId; root_view := Some el;
                 root_unmounted := false |}].
Proof.
  unfold render, createRoot. simpl.
  apply list_eq. intros i.
  destruct (decide (i = length (roots e))) as [->|Hne].
  - rewrite list_lookup_alter_eq, !lookup_app_r, Nat.sub_diag by done. done.
  - rewrite list_lookup_alter_ne by done.
    destruct (decide (i < length (roots e))).
    + by rewrite !lookup_app_l by done.
    + rewrite !lookup_app_r by lia.
      destruct (i - length (roots e)) as [|j] eqn:E; [lia|done].
Qed.

(** C7, as the code has it.  With a current-editing identifier that is set
    (and not the empty string), registered, and whose handler supplies a
    custom [renderPreview], the preview callback is exactly that renderer
    applied to the value and the container id: its effect and the teardown
    it returns.  With no current-editing identifier (or the empty one), an
    identifier that is no longer registered, or a handler with no custom
    renderer, it is [createDefaultPreview].  That one, when the container
    exists, renders the read-only element for the (coerced) value into the
    manager's render target if it has one, and otherwise into a target it
    creates on the container and keeps; it returns a teardown closure which,
    called next, unmounts that target and clears the manager's reference to
    it.  When the container does not exist it does nothing and returns no
    teardown. *)
Theorem bridge_renderPreview_dispatch schema (containerId : string) this e :
  (∀ id handler custom,
     currentEditingId this = Some id → id ≠ EmptyString →
     registry this !! id = Some handler →
     renderPreview handler = Some custom →
     bridge_renderPreview JSON_stringify schema containerId (this, e) =
       ((this, set_world (custom schema containerId (world e)).1 e),
        HandlerTeardown <$> (custom schema containerId (world e)).2)) ∧
  (truthy (currentEditingId this) = false ∨
   (∃ id, currentEditingId this = Some id ∧
      (registry this !! id = None ∨
       ∃ handler, registry this !! id = Some handler ∧ renderPreview handler = None)) →
   bridge_renderPreview JSON_stringify schema containerId (this, e) =
     createDefaultPreview JSON_stringify schema containerId (this, e)) ∧
  (containerId ∈ document e →
   let el := preview_element (schema_content JSON_stringify schema) in
   let '(st', t) := createDefaultPreview JSON_stringify schema containerId (this, e) in
   readonly el = true ∧
   t = Some DefaultTeardown ∧
   (∀ root, previewRoot this = Some root →
      st' = (this, render root el e) ∧
      roots st'.2 !! root =
        (λ x, {| root_container := root_container x; root_view := Some el;
                 root_unmounted := root_unmounted x |}) <$> roots e !! root) ∧
   (previewRoot this = None →
      previewRoot st'.1 = Some (length (roots e)) ∧
      roots st'.2 =
        roots e ++ [{| root_container := containerId; root_view := Some el;
                       root_unmounted := false |}]) ∧
   (∀ root, previewRoot st'.1 = Some root →
      let st'' := call_teardown DefaultTeardown st' in
      previewRoot st''.1 = None ∧
      roots st''.2 !! root =
        (λ x, {| root_container := root_container x; root_view := None;
                 root_unmounted := true |}) <$> roots st'.2 !! root)) ∧
  (containerId ∉ document e →
   createDefaultPreview JSON_stringify schema containerId (this, e) = ((this, e), None)).
Proof.
  split; [|split; [|split]].
  - intros id handler custom Hid Hne Hreg Hcustom.
    unfold bridge_renderPreview. rewrite Hid.
    apply truthy_Some in Hne. rewrite Hne. simpl.
    rewrite Hreg. simpl. rewrite Hcustom.
    by destruct (custom schema containerId (world e)).
  - intros [Hf|(id & Hid & Hcase)]; unfold bridge_renderPreview.
    + by rewrite Hf.
    + rewrite Hid. destruct (truthy (Some id)); [|done]. simpl.
      destruct Hcase as [->|(handler & -> & Hnone)]; [done|].
      simpl. by rewrite Hnone.
  - intros Hc el.
    destruct (previewRoot this) as [root|] eqn:Hroot.
    + rewrite (createDefaultPreview_reuse _ _ _ _ root) by done.
      split; [done|]. split; [done|]. split; [|split; [done|]].
      * intros ? [= <-]. split; [done|]. simpl. apply list_lookup_alter_eq.
      * simpl. rewrite Hroot. intros ? [= <-].
        split; [done|]. apply list_lookup_alter_eq.
    + rewrite createDefaultPreview_create by done.
      split; [done|]. split; [done|]. split; [done|]. split.
      * intros _. split; [done|]. simpl. apply roots_render_new.
      * simpl. intros ? [= <-]. split; [done|]. apply list_lookup_alter_eq.
  - intros Hc. apply createDefaultPreview_None.
    by apply getElementById_None.
Qed.

End CallbackFacts.

Section ProcessFacts.

Context {W Obj : Type}.
Implicit Types (this : SchemaEditorBridgeManager W Obj) (e : Env W).
Implicit Types (st : St W Obj) (p : Process W Obj).

(** ** [getInstance] and [destroy] *)

Lemma destroy_instance_eq this e :
  destroy_instance (this, e) =
  (set_enabled (enabled this) new_manager,
   match previewRoot this with Some root => unmount root | None => λ e, e end
     match cleanup this with Some k => call_cleanup k e | None => e end).
Proof.
  unfold destroy_instance, stopBridge.
  destruct this as [reg [k|] en [root|] cur]; done.
Qed.

Lemma getInstance_valid p : valid_instance p → valid_instance (getInstance p).2.
Proof.
  unfold getInstance. destruct (instance p) as [a|] eqn:E; simpl; [done|].
  intros _ a [= <-]. simpl. rewrite lookup_app_r, Nat.sub_diag by done. eauto.
Qed.

Lemma getInstance_lookup p :
  valid_instance p →
  instance (getInstance p).2 = Some (getInstance p).1 ∧
  is_Some (heap (getInstance p).2 !! (getInstance p).1).
Proof.
  intros Hv. unfold getInstance. destruct (instance p) as [a|] eqn:E; simpl.
  - split; [done|]. by apply Hv.
  - split; [done|]. rewrite lookup_app_r, Nat.sub_diag by done. eauto.
Qed.

Lemma invoke_valid a method p : valid_instance p → valid_instance (invoke a method p).
Proof.
  unfold invoke. destruct (heap p !! a) as [this|] eqn:E; [|done].
  destruct (method (this, env p)) as [this' e']. intros Hv b Hb. simpl in *.
  apply lookup_lt_is_Some. rewrite length_insert. apply lookup_lt_is_Some. by apply Hv.
Qed.

Lemma ask_invoke_eq {A} a (method : St W Obj → St W Obj) (f : St W Obj → A) p this :
  heap p !! a = Some this →
  ask a f (invoke a method p) = Some (f (method (this, env p))).
Proof.
  intros H. unfold ask, invoke. rewrite H.
  destruct (method (this, env p)) as [this' e'] eqn:E. simpl.
  rewrite list_lookup_insert_eq by (by eapply lookup_lt_Some). done.
Qed.

(** C6.  [destroy()] on an existing instance calls the cleanup function of
    the connection it holds (so that no connection is left open when the
    manager held the open ones), empties its registry, clears its
    current-editing identifier, unmounts and forgets its preview root, and
    drops the singleton: the next [getInstance()] builds another object,
    with registry size 0 and enabled = false.  A further [destroy()], and
    [destroy()] with no instance, change nothing; every case of [destroy]
    returns a state. *)
Theorem destroy_then_getInstance p :
  (∀ a this, instance p = Some a → heap p !! a = Some this →
     let p' := destroy p in
     instance p' = None ∧
     (∃ this', heap p' !! a = Some this' ∧ registry this' = ∅ ∧
        cleanup this' = None ∧ currentEditingId this' = None ∧
        previewRoot this' = None) ∧
     (∀ k, cleanup this = Some k →
        ¬ bridge_open (env p') k ∧ bridges (env p') = alter S k (bridges (env p))) ∧
     (coherent (this, env p) → ¬ connected (env p')) ∧
     (∀ root, previewRoot this = Some root →
        roots (env p') !! root =
          (λ x, {| root_container := root_container x; root_view := None;
                   root_unmounted := true |}) <$> roots (env p) !! root) ∧
     (let '(b, q) := getInstance p' in
      b ≠ a ∧ instance q = Some b ∧ heap q !! b = Some new_manager ∧
      ask b getRegistrySize q = Some 0 ∧ ask b isEnabled q = Some false) ∧
     destroy p' = p') ∧
  (instance p = None →
     destroy p = p ∧
     let '(b, q) := getInstance (destroy p) in
     instance q = Some b ∧ heap q !! b = Some new_manager ∧
     ask b getRegistrySize q = Some 0 ∧ ask b isEnabled q = Some false).
Proof.
  split.
  - intros a this Ha Hthis p'.
    assert (p' = {| instance := None;
                    heap := <[a := (destroy_instance (this, env p)).1]> (heap p);
                    env := (destroy_instance (this, env p)).2 |}) as Hp'.
    { subst p'. unfold destroy, invoke. rewrite Ha, Hthis.
      by destruct (destroy_instance (this, env p)). }
    rewrite destroy_instance_eq in Hp'. simpl in Hp'.
    assert (a < length (heap p)) as Hlt by by eapply lookup_lt_Some.
    assert (bridges (env p') =
            bridges match cleanup this with
                    | Some k => call_cleanup k (env p) | None => env p end) as Hb.
    { rewrite Hp'. simpl. by destruct (previewRoot this). }
    split; [by rewrite Hp'|]. split; [|split; [|split; [|split; [|split]]]].
    + rewrite Hp'. simpl. eexists. split; [by apply list_lookup_insert_eq|]. done.
    + intros k Hk. unfold bridge_open. rewrite Hb, Hk. simpl. split; [|done].
      rewrite list_lookup_alter_eq. by destruct (bridges (env p) !! k).
    + intros Hc [j Hj]. unfold bridge_open in Hj. rewrite Hb in Hj.
      destruct (cleanup this) as [k|] eqn:Hk.
      * apply (bridge_open_cleanup (env p) k j) in Hj as [Hj Hne].
        apply Hc in Hj. simpl in Hj. congruence.
      * apply Hc in Hj. simpl in Hj. congruence.
    + intros root Hr. rewrite Hp', Hr. simpl. rewrite list_lookup_alter_eq.
      by destruct (cleanup this).
    + rewrite Hp'. unfold getInstance, ask. simpl.
      rewrite length_insert. split; [lia|]. split; [done|].
      rewrite lookup_app_r by (by rewrite length_insert).
      by rewrite length_insert, Nat.sub_diag.
    + by rewrite Hp'.
  - intros Hi. unfold destroy. rewrite Hi. split; [done|].
    unfold getInstance, ask. rewrite Hi. simpl.
    by rewrite lookup_app_r, Nat.sub_diag by done.
Qed.

End ProcessFacts.

Section FlagFacts.

Context {W Obj : Type}.
Implicit Types (st : St W Obj) (p : Process W Obj).

(** ** What the manager's methods do to the enabled flag *)

Lemma enabled_setEnabled flag st : enabled (setEnabled flag st).1 = flag.
Proof.
  destruct st as [this e]. unfold setEnabled.
  destruct (flag && negb (enabled this) && _).
  { by destruct (startBridge_fields (set_enabled flag this, e)) as (_ & -> & _). }
  destruct (negb flag && enabled this); [|done].
  by destruct (stopBridge_fields (set_enabled flag this, e)) as (_ & -> & _).
Qed.

Lemma enabled_register id handler st :
  enabled (register id handler st).1 = enabled st.1.
Proof.
  destruct st as [this e]. unfold register. simpl.
  destruct (enabled this) eqn:E; [|done].
  destruct (startBridge_fields
    (set_registry (<[id:=handler]> (registry this)) this, e)) as (_ & -> & _).
  done.
Qed.

Lemma enabled_unregister id st : enabled (unregister id st).1 = enabled st.1.
Proof.
  destruct st as [this e]. unfold unregister. simpl.
  case_bool_decide; [|done].
  by destruct (stopBridge_fields
    (set_registry (delete id (registry this)) this, e)) as (_ & -> & _).
Qed.

Lemma registry_register id handler st :
  registry (register id handler st).1 = <[id := handler]> (registry st.1).
Proof. apply (registry_call (Register id handler) st). Qed.

Lemma invoke_lookup a method p this :
  heap p !! a = Some this →
  heap (invoke a method p) !! a = Some (method (this, env p)).1 ∧
  env (invoke a method p) = (method (this, env p)).2 ∧
  instance (invoke a method p) = instance p.
Proof.
  intros H. unfold invoke. rewrite H.
  destruct (method (this, env p)) as [this' e']. simpl.
  rewrite list_lookup_insert_eq by (by eapply lookup_lt_Some). done.
Qed.

Lemma instance_invoke a method p : instance (invoke a method p) = instance p.
Proof.
  unfold invoke. destruct (heap p !! a) as [this|]; [|done].
  by destruct (method (this, env p)).
Qed.

Lemma instance_getInstance p a :
  instance p = Some a → instance (getInstance p).2 = Some a.
Proof. intros H. unfold getInstance. by rewrite H. Qed.

Lemma isEnabled_invoke a b method p :
  (∀ st, enabled st.1 = true → enabled (method st).1 = true) →
  ask a isEnabled p = Some true →
  ask a isEnabled (invoke b method p) = Some true.
Proof.
  intros Hm. unfold ask, invoke, isEnabled. simpl.
  destruct (heap p !! b) as [this|] eqn:Hb; [|done].
  destruct (method (this, env p)) as [this' e'] eqn:E. simpl.
  destruct (decide (b = a)) as [->|Hne].
  - rewrite Hb. simpl. intros [= Ht].
    rewrite list_lookup_insert_eq by (by eapply lookup_lt_Some). simpl.
    specialize (Hm (this, env p) Ht). rewrite E in Hm. simpl in Hm. by rewrite Hm.
  - by rewrite list_lookup_insert_ne.
Qed.

Lemma isEnabled_getInstance a p :
  ask a isEnabled p = Some true → ask a isEnabled (getInstance p).2 = Some true.
Proof.
  unfold ask, getInstance, isEnabled. simpl.
  destruct (instance p); [done|]. simpl.
  destruct (heap p !! a) as [this|] eqn:Ha; [|done].
  by rewrite (lookup_app_l_Some _ _ _ _ Ha).
Qed.

End FlagFacts.

Section HookFacts.

Context {U Obj : Type}.
Implicit Types (w : World U) (p : Process (World U) Obj) (app : App U Obj).
Implicit Types (rp : option (Renderer U Obj)).

(** ** The cell beside the state *)

Lemma hooks_setContentInternal i v w :
  contentCell (hooks (setContentInternal i v w) i) =
  setRefState v (contentCell (hooks w i)).
Proof. unfold setContentInternal, update_hook. simpl. by rewrite fn_lookup_insert. Qed.

Lemma onContentChangeRef_setContentInternal i v w :
  onContentChangeRef (hooks (setContentInternal i v w) i) =
  onContentChangeRef (hooks w i).
Proof. unfold setContentInternal, update_hook. simpl. by rewrite fn_lookup_insert. Qed.

Lemma hook_setContent_sync i newContent w rp :
  let w' := hook_setContent i newContent w in
  getContent (hook_handler i rp) w' = newContent ∧
  user w' = match onContentChangeRef (hooks w i) with
            | Some onContentChange => onContentChange newContent (user w)
            | None => user w
            end ∧
  hook_content i w' = hook_content i w.
Proof.
  intros w'. subst w'. unfold hook_setContent, hook_content.
  rewrite onContentChangeRef_setContentInternal.
  destruct (onContentChangeRef (hooks w i)); cbn [getContent hook_handler hooks user];
    by rewrite hooks_setContentInternal.
Qed.

(** ** The registration effect and the enabled flag *)

Lemma ask_on_world {A} a (f : World U → World U)
    (g : SchemaEditorBridgeManager (World U) Obj → A) p :
  ask a (λ st, g st.1) (on_world f p) = ask a (λ st, g st.1) p.
Proof. done. Qed.

Lemma isEnabled_effect_cleanup a c p :
  ask a isEnabled p = Some true → ask a isEnabled (effect_cleanup c p) = Some true.
Proof.
  destruct c as [[manager id]|]; [|done]. simpl.
  apply isEnabled_invoke. intros st. by rewrite enabled_unregister.
Qed.

Lemma isEnabled_registration_effect a i id enabled rp p :
  ask a isEnabled p = Some true →
  ask a isEnabled (registration_effect i id enabled rp p).1 = Some true.
Proof.
  intros H%isEnabled_getInstance. unfold registration_effect.
  destruct (getInstance p) as [manager p0]. simpl in H.
  destruct id as [s|]; [|done].
  destruct (negb (truthy (Some s)) || negb enabled).
  - destruct (truthy (Some s) && _); [|done]. simpl.
    apply isEnabled_invoke; [|done]. intros st. by rewrite enabled_unregister.
  - simpl. apply isEnabled_invoke.
    { intros st. by rewrite enabled_register. }
    apply isEnabled_invoke; [|done]. intros st _. apply enabled_setEnabled.
Qed.

Lemma instance_effect_cleanup c p : instance (effect_cleanup c p) = instance p.
Proof. destruct c as [[manager id]|]; [|done]. apply instance_invoke. Qed.

Lemma instance_registration_effect a i id enabled rp p :
  instance p = Some a →
  instance (registration_effect i id enabled rp p).1 = Some a.
Proof.
  intros H%instance_getInstance. unfold registration_effect.
  destruct (getInstance p) as [manager p0]. simpl in H.
  destruct id as [s|]; [|done].
  destruct (negb (truthy (Some s)) || negb enabled).
  - destruct (truthy (Some s) && _); [|done]. simpl. by rewrite instance_invoke.
  - simpl. by rewrite !instance_invoke.
Qed.

Lemma hook_event_keeps ev app a :
  (ask a isEnabled (process app) = Some true →
   ask a isEnabled (process (hook_event ev app)) = Some true) ∧
  (instance (process app) = Some a →
   instance (process (hook_event ev app)) = Some a).
Proof.
  destruct ev as [i id init config|i id init config|i|i newContent]; simpl.
  - unfold mount.
    match goal with
    | |- context [registration_effect ?i ?id ?en ?rp ?p] =>
        pose proof (isEnabled_registration_effect a i id en rp p) as H1;
        pose proof (instance_registration_effect a i id en rp p) as H2;
        destruct (registration_effect i id en rp p) as [p' c]
    end.
    simpl in *. split; intros H; [apply H1|apply H2]; exact H.
  - unfold rerender. destruct (fibers app !! i) as [f|]; [|done].
    case_bool_decide as Hsame.
    + destruct (bool_decide (dep_initialContent f = init)); done.
    + match goal with
      | |- context [registration_effect ?i ?id ?en ?rp ?p] =>
          pose proof (isEnabled_registration_effect a i id en rp p) as H1;
          pose proof (instance_registration_effect a i id en rp p) as H2;
          destruct (registration_effect i id en rp p) as [p' c]
      end.
      simpl in *. split; intros H; [apply H1|apply H2];
        destruct (bool_decide (dep_initialContent f = init)).
      * by apply isEnabled_effect_cleanup.
      * by apply (isEnabled_effect_cleanup a (fiber_cleanup f)
                    (on_world (hook_render false i init config) (process app))).
      * by rewrite instance_effect_cleanup.
      * simpl. by rewrite instance_effect_cleanup.
  - unfold unmount_hook. destruct (fibers app !! i) as [f|]; [|done]. simpl.
    split; intros H.
    + by apply isEnabled_effect_cleanup.
    + by rewrite instance_effect_cleanup.
  - done.
Qed.

Lemma hook_events_keep evs app a :
  (ask a isEnabled (process app) = Some true →
   ask a isEnabled (process (hook_events evs app)) = Some true) ∧
  (instance (process app) = Some a →
   instance (process (hook_events evs app)) = Some a).
Proof.
  revert app. induction evs as [|ev evs IH]; intros app; [done|].
  simpl. destruct (IH (hook_event ev app)) as [IH1 IH2].
  destruct (hook_event_keeps ev app a) as [H1 H2]. split; auto.
Qed.

Lemma registration_effect_enabled i s rp p :
  s ≠ EmptyString → valid_instance p →
  let manager := (getInstance p).1 in
  registration_effect i (Some s) true rp p =
    (invoke manager (register s (hook_handler i rp))
       (invoke manager (setEnabled true) (getInstance p).2),
     Some (manager, s)) ∧
  instance (registration_effect i (Some s) true rp p).1 = Some manager ∧
  ask manager isEnabled (registration_effect i (Some s) true rp p).1 = Some true ∧
  ask manager (has s) (registration_effect i (Some s) true rp p).1 = Some true.
Proof.
  intros Hs Hv manager.
  assert (registration_effect i (Some s) true rp p =
    (invoke manager (register s (hook_handler i rp))
       (invoke manager (setEnabled true) (getInstance p).2),
     Some (manager, s))) as Heq.
  { unfold registration_effect. subst manager.
    destruct (getInstance p) as [m p0]. apply truthy_Some in Hs.
    by rewrite Hs. }
  split; [done|]. rewrite Heq. simpl.
  destruct (getInstance_lookup p Hv) as [Hi [this0 Hthis0]].
  fold manager in Hi, Hthis0.
  destruct (invoke_lookup manager (setEnabled true) _ _ Hthis0) as (H1 & _ & Hi1).
  split; [by rewrite !instance_invoke|].
  rewrite !(ask_invoke_eq _ _ _ _ _ H1). split.
  - unfold isEnabled. rewrite enabled_register. cbn [fst].
    by rewrite enabled_setEnabled.
  - unfold has. f_equal. apply bool_decide_eq_true.
    rewrite registry_register, lookup_insert_eq. eauto.
Qed.

Lemma valid_instance_on_world (f : World U → World U) p :
  valid_instance p → valid_instance (on_world f p).
Proof. done. Qed.

End HookFacts.

(** ** The hook's claims *)

(** C8.  Right after the hook's [setContent] is called with a new content
    string, the registered handler's [getContent] returns that string, also
    when the host asks for it through the content query, although the state
    the last render saw is still the old one.  [setContent] calls
    [onContentChange], when one is configured, once and with the new
    content: the callback's state is the callback applied once, and a
    callback that logs its argument has logged the new content and nothing
    else. *)
Theorem setContent_then_getContent {U Obj : Type} (i : nat) (newContent : string)
    (w : World U) (rp : option (Renderer U Obj)) :
  let w' := hook_setContent i newContent w in
  getContent (hook_handler i rp) w' = newContent ∧
  hook_content i w' = hook_content i w ∧
  (∀ (id : string) (this : SchemaEditorBridgeManager (World U) Obj) (e : Env (World U)),
     registry this !! id = Some (hook_handler i rp) →
     (getSchema id (this, set_world w' e)).2 = Some newContent) ∧
  (∀ onContentChange,
     onContentChangeRef (hooks w i) = Some onContentChange →
     user w' = onContentChange newContent (user w)) ∧
  (onContentChangeRef (hooks w i) = None → user w' = user w) ∧
  (∀ w0 : World (list string),
     onContentChangeRef (hooks w0 i) = Some (λ content log, log ++ [content]) →
     user (hook_setContent i newContent w0) = user w0 ++ [newContent]).
Proof.
  intros w'.
  destruct (hook_setContent_sync (Obj:=Obj) i newContent w rp) as (Hget & Huser & Hstate).
  fold w' in Hget, Huser, Hstate.
  split; [done|]. split; [done|]. split; [|split; [|split]].
  - intros id this e Hreg. unfold getSchema. rewrite Hreg. simpl.
    f_equal. exact Hget.
  - intros f Hf. by rewrite Huser, Hf.
  - intros Hf. by rewrite Huser, Hf.
  - intros w0 Hf.
    destruct (hook_setContent_sync (Obj:=Obj) i newContent w0 None) as (_ & Hu & _).
    by rewrite Hu, Hf.
Qed.

(** C10, as the code has it.  When the registration effect runs with a
    non-empty identifier and [enabled] true, it is
    [manager.setEnabled(true)] followed by [manager.register(id, handler)]
    on the singleton, so afterwards the singleton's flag is on and the
    identifier is registered; mounting an enabled hook instance with such an
    identifier therefore turns the flag on.  No event of a hook instance
    (mount, re-render with any identifier and configuration, unmount, a
    local [setContent]) turns the flag of a manager off again or replaces
    the singleton.  The empty string counts as no identifier ([!id]): with
    it the effect returns after [getInstance()], whatever [enabled] is. *)
Theorem hook_enables_manager_and_never_disables {U Obj : Type} :
  (∀ i s rp (p : Process (World U) Obj),
     s ≠ EmptyString → valid_instance p →
     let manager := (getInstance p).1 in
     let p' := (registration_effect i (Some s) true rp p).1 in
     registration_effect i (Some s) true rp p =
       (invoke manager (register s (hook_handler i rp))
          (invoke manager (setEnabled true) (getInstance p).2),
        Some (manager, s)) ∧
     instance p' = Some manager ∧
     ask manager isEnabled p' = Some true ∧
     ask manager (has s) p' = Some true) ∧
  (∀ i s initialContent config (app : App U Obj),
     s ≠ EmptyString → enabled_of config = true → valid_instance (process app) →
     let app' := mount i (Some s) initialContent config app in
     ∃ manager,
       instance (process app') = Some manager ∧
       ask manager isEnabled (process app') = Some true ∧
       ask manager (has s) (process app') = Some true) ∧
  (∀ (evs : list (HookEvent U Obj)) (app : App U Obj) manager,
     (ask manager isEnabled (process app) = Some true →
      ask manager isEnabled (process (hook_events evs app)) = Some true) ∧
     (instance (process app) = Some manager →
      instance (process (hook_events evs app)) = Some manager)) ∧
  (∀ i enabled rp (p : Process (World U) Obj),
     registration_effect i (Some EmptyString) enabled rp p =
       ((getInstance p).2, None)).
Proof.
  split; [|split; [|split]]; cycle 3.
  { intros i enabled rp p. unfold registration_effect.
    by destruct (getInstance p) as [manager p0]. }
  - intros i s rp p Hs Hv. by apply registration_effect_enabled.
  - intros i s init config app Hs Hen Hv app'. subst app'. unfold mount.
    rewrite Hen.
    match goal with
    | |- context [registration_effect ?i ?id ?en ?rp ?p] =>
        destruct (registration_effect_enabled i s rp p Hs) as (_ & H1 & H2 & H3);
        [done|]; destruct (registration_effect i id en rp p) as [p' c]
    end.
    simpl in *. eauto.
  - intros evs app manager. apply hook_events_keep.
Qed.

(** * Further properties of the bridge *)

Section MoreFacts.

Context {W Obj : Type}.
Variable JSON_stringify : Obj → nat → string.
Implicit Types (this : SchemaEditorBridgeManager W Obj) (e : Env W).
Implicit Types (st : St W Obj) (handler : BubbleHandler W Obj).

(** ** No cleanup function is called twice *)

Lemma once_startBridge st :
  Forall (λ n, n ≤ 1) (bridges st.2) →
  Forall (λ n, n ≤ 1) (bridges (startBridge st).2).
Proof.
  destruct st as [this e]. unfold startBridge; simpl.
  destruct (cleanup this); simpl; [done|].
  intros H. apply Forall_app. split; [done|]. by repeat constructor.
Qed.

Lemma once_stopBridge st :
  coherent st →
  Forall (λ n, n ≤ 1) (bridges st.2) →
  Forall (λ n, n ≤ 1) (bridges (stopBridge st).2).
Proof.
  destruct st as [this e]. unfold stopBridge, coherent; simpl. intros Hc H.
  destruct (cleanup this) as [k|] eqn:E; simpl; [|done].
  apply Forall_alter; [done|].
  intros n Hn. assert (bridge_open e k) as Hk by by apply Hc.
  unfold bridge_open in Hk. rewrite Hk in Hn. injection Hn as <-. lia.
Qed.

Lemma once_call c st :
  bridge_inv st →
  Forall (λ n, n ≤ 1) (bridges st.2) →
  Forall (λ n, n ≤ 1) (bridges (call c st).2).
Proof.
  destruct st as [this e]. intros [Hc _] H.
  destruct c as [flag|id handler|id]; simpl.
  - unfold setEnabled.
    destruct (flag && negb (enabled this) && _); [by apply once_startBridge|].
    destruct (negb flag && enabled this); [|done].
    by apply once_stopBridge.
  - unfold register. simpl.
    destruct (enabled this); [|done]. by apply once_startBridge.
  - unfold unregister. simpl.
    case_bool_decide; [|done]. by apply once_stopBridge.
Qed.

(** X1.  Along any sequence of calls on a new manager, a connection that was
    opened has its cleanup function called at most once (and, by
    [bridge_inv], not at all while the manager holds it). *)
Theorem cleanup_called_at_most_once (e0 : Env W) (cs : list (Call W Obj)) :
  ¬ connected e0 →
  Forall (λ n, n ≤ 1) (bridges e0) →
  Forall (λ n, n ≤ 1) (bridges (calls cs (new_manager, e0)).2).
Proof.
  intros Hno H0.
  assert (bridge_inv (calls cs (new_manager, e0)) ∧
          Forall (λ n, n ≤ 1) (bridges (calls cs (new_manager, e0)).2)) as [_ ?];
    [|done].
  induction cs as [|c cs IH] using rev_ind.
  - split; [by apply bridge_inv_new|done].
  - rewrite calls_snoc. destruct IH as [IH1 IH2]. split.
    + by apply call_inv.
    + by apply once_call.
Qed.

(** ** Query, update, query *)

(** X2.  For a handler whose [getContent] reads what its [setContent] wrote, an
    update with a string is what the next query returns. *)
Theorem update_then_query (id content : string) handler this e :
  registry this !! id = Some handler →
  (∀ w, getContent handler (setContent handler content w) = content) →
  (updateSchema JSON_stringify (SchemaString content) id (this, e)).2 = true ∧
  (getSchema id
     (updateSchema JSON_stringify (SchemaString content) id (this, e)).1).2 =
    Some content.
Proof.
  intros Hreg Hlaw. unfold updateSchema. rewrite Hreg. simpl.
  split; [done|]. rewrite Hreg. simpl. by rewrite Hlaw.
Qed.

(** ** Unknown identifiers *)

(** [unregister] of an identifier the registry does not have changes
    nothing while the registry is not empty, and then only closes the
    connection (if any) when it is. *)
Theorem unregister_unknown (id : string) this e :
  registry this !! id = None →
  unregister id (this, e) =
    if bool_decide (size (registry this) = 0) then stopBridge (this, e) else (this, e).
Proof.
  intros H. unfold unregister. simpl. rewrite delete_id by done.
  by destruct this.
Qed.

End MoreFacts.

(** * The theorems at concrete inputs *)

Lemma page_not_connected : ¬ connected page.
Proof. intros [k Hk]. by destruct k. Qed.

(** C1 on the page: enable, register [a], unregister it, looked at after
    the first two calls. *)
Lemma connection_open_iff_enabled_and_registered_witness :
  let st := calls (take 2 [SetEnabled true; Register "a" plain_handler; Unregister "a"])
              (new_manager, page) in
  (connected st.2 ↔ isEnabled st = true ∧ 0 < getRegistrySize st) ∧
  (∀ k, bridge_open st.2 k ↔ cleanup st.1 = Some k).
Proof.
  apply (connection_open_iff_enabled_and_registered page
           [SetEnabled true; Register "a" plain_handler; Unregister "a"] 2).
  exact page_not_connected.
Defined.

(** C2 on [manager_ac]: the query for [a] and the query for [zz]. *)
Lemma getSchema_by_id_witness :
  (let '(st', r) := getSchema "a" (manager_ac, page_connected) in
   r = Some "X" ∧ currentEditingId st'.1 = Some "a") ∧
  (let '(st', r) := getSchema "zz" (manager_ac, page_connected) in
   r = None ∧ currentEditingId st'.1 = None ∧
   getRegistrySize st' = getRegistrySize (manager_ac, page_connected)).
Proof.
  split.
  - destruct (getSchema_by_id "a" manager_ac page_connected) as [H _].
    specialize (H plain_handler eq_refl).
    destruct (getSchema "a" (manager_ac, page_connected)) as [st' r].
    destruct H as (H1 & H2 & _). by split.
  - destruct (getSchema_by_id "zz" manager_ac page_connected) as [_ H].
    specialize (H eq_refl).
    destruct (getSchema "zz" (manager_ac, page_connected)) as [st' r].
    destruct H as (H1 & H2 & _ & H4 & _). by split.
Defined.

(** C3 on [manager_ac]: an update for [zz], and the update of [a] with the
    value [true], which reaches the handler as the text [true]. *)
Lemma updateSchema_by_id_witness :
  updateSchema stringify_bool (SchemaObject true) "zz" (manager_ac, page_connected) =
    ((manager_ac, page_connected), false) ∧
  updateSchema stringify_bool (SchemaObject true) "a" (manager_ac, page_connected) =
    ((manager_ac, set_world "true" page_connected), true).
Proof.
  split.
  - apply (proj1 (updateSchema_by_id stringify_bool (SchemaObject true) "zz"
                    manager_ac page_connected)).
    reflexivity.
  - apply (proj2 (updateSchema_by_id stringify_bool (SchemaObject true) "a"
                    manager_ac page_connected) plain_handler).
    reflexivity.
Defined.

(** C4 on the page: the three kinds of call. *)
Lemma setEnabled_acts_on_edges_witness :
  setEnabled true (manager_ac, page_connected) = (manager_ac, page_connected) ∧
  bridge_open (setEnabled true (manager_off, page)).2 0 ∧
  cleanup (setEnabled false (manager_ac, page_connected)).1 = None.
Proof.
  split; [|split].
  - apply (proj1 (setEnabled_acts_on_edges true manager_ac page_connected)).
    reflexivity.
  - destruct (setEnabled_acts_on_edges true manager_off page) as (_ & H & _).
    destruct (H eq_refl) as (_ & Hopen & _).
    assert (0 < size (registry manager_off)) as Hsz by (vm_compute; lia).
    destruct (Hopen Hsz) as [_ Hnone]. by destruct (Hnone eq_refl).
  - destruct (setEnabled_acts_on_edges false manager_ac page_connected) as (_ & _ & H).
    by destruct (H eq_refl) as (_ & Hnone & _).
Defined.

(** C5 on [manager_ac]: registering [a] again. *)
Lemma getRegistrySize_counts_registered_witness :
  getRegistrySize
    (register "a" custom_handler
       (calls [Register "a" plain_handler; SetEnabled true] (new_manager, page))) =
  getRegistrySize (calls [Register "a" plain_handler; SetEnabled true] (new_manager, page)).
Proof.
  destruct (getRegistrySize_counts_registered page
              [Register "a" plain_handler; SetEnabled true]) as [_ H].
  destruct (H "a" custom_handler) as (_ & Hsame & _).
  apply Hsame. reflexivity.
Defined.

(** C9 on the page, which has no element of id [missing]. *)
Lemma createDefaultPreview_missing_container_witness :
  createDefaultPreview stringify_bool (SchemaString "# Title") "missing"
    (manager_ac, page_connected) = ((manager_ac, page_connected), None).
Proof.
  apply (createDefaultPreview_missing_container stringify_bool (SchemaString "# Title")
           "missing" manager_ac page_connected).
  reflexivity.
Defined.

(** C7 as stated fails where the container is missing: with no
    current-editing identifier the callback falls back to the built-in
    preview, and there it renders nothing and returns no teardown closure. *)
Lemma bridge_renderPreview_without_container :
  currentEditingId manager_off = None ∧
  bridge_renderPreview stringify_bool (SchemaString "# Title") "missing"
    (manager_off, page) = ((manager_off, page), None).
Proof. split; reflexivity. Qed.

(** C7 as the code has it, on the page: the custom preview of [c], and the
    built-in preview into the element [preview]. *)
Lemma bridge_renderPreview_dispatch_witness :
  bridge_renderPreview stringify_bool (SchemaString "# Title") "preview"
    (manager_ac, page_connected) =
    ((manager_ac, set_world "preview" page_connected),
     Some (HandlerTeardown (λ _, EmptyString))) ∧
  bridge_renderPreview stringify_bool (SchemaString "# Title") "preview"
    (manager_off, page) =
    createDefaultPreview stringify_bool (SchemaString "# Title") "preview"
      (manager_off, page) ∧
  (createDefaultPreview stringify_bool (SchemaString "# Title") "preview"
     (manager_off, page)).2 = Some DefaultTeardown ∧
  createDefaultPreview stringify_bool (SchemaString "# Title") "missing"
    (manager_off, page) = ((manager_off, page), None).
Proof.
  destruct (bridge_renderPreview_dispatch stringify_bool (SchemaString "# Title")
              "preview" manager_ac page_connected) as (Hcustom & _).
  destruct (bridge_renderPreview_dispatch stringify_bool (SchemaString "# Title")
              "preview" manager_off page) as (_ & Hfall & Hdefault & _).
  destruct (bridge_renderPreview_dispatch stringify_bool (SchemaString "# Title")
              "missing" manager_off page) as (_ & _ & _ & Hmissing).
  split; [|split; [|split]].
  - apply (Hcustom "c" custom_handler
             (λ _ containerId _, (containerId, Some (λ _, EmptyString))));
      [reflexivity|discriminate|reflexivity..].
  - apply Hfall. by left.
  - assert ("preview" ∈ document page) as Hin by set_solver.
    specialize (Hdefault Hin). cbv zeta in Hdefault.
    destruct (createDefaultPreview _ _ _ _) as [st' t].
    by destruct Hdefault as (_ & -> & _).
  - apply Hmissing. set_solver.
Defined.

(** C6 on a process whose singleton is [manager_ac]. *)
Lemma destroy_then_getInstance_witness :
  let p := {| instance := Some 0; heap := [manager_ac]; env := page_connected |} in
  instance (destroy p) = None ∧
  ¬ connected (env (destroy p)) ∧
  ask (getInstance (destroy p)).1 getRegistrySize (getInstance (destroy p)).2 = Some 0 ∧
  ask (getInstance (destroy p)).1 isEnabled (getInstance (destroy p)).2 = Some false ∧
  destroy (destroy p) = destroy p.
Proof.
  intros p.
  destruct (destroy_then_getInstance p) as [H _].
  destruct (H 0 manager_ac eq_refl eq_refl) as (H1 & _ & _ & H4 & _ & H6 & H7).
  split; [exact H1|]. split.
  - apply H4. intros k. simpl. split.
    + intros Hk. destruct k as [|[|k]]; [done|done|done].
    + intros [= <-]. done.
  - destruct (getInstance (destroy p)) as [b q].
    destruct H6 as (_ & _ & _ & H8 & H9). by split; [|split].
Defined.

(** C8 on the mounted hook instance of [app_b]: [setContent("world")]. *)
Lemma setContent_then_getContent_witness :
  let w := world (env (process app_b)) in
  getContent (hook_handler (Obj:=bool) 0 None) (hook_setContent 0 "world" w) = "world" ∧
  user (hook_setContent 0 "world" w) = ["world"].
Proof.
  intros w.
  destruct (setContent_then_getContent (Obj:=bool) 0 "world" w None)
    as (H1 & _ & _ & _ & _ & H6).
  split; [exact H1|].
  apply (H6 w). reflexivity.
Defined.

(** C10 as stated fails for the empty identifier, which is a string and so
    an identifier the hook can be given: run with it and [enabled] true, the
    effect calls neither [setEnabled(true)] nor [register]; the flag of the
    singleton stays off, nothing is registered, no cleanup is returned. *)
Lemma registration_effect_with_empty_id :
  let r := registration_effect (Obj:=bool) 0 (Some EmptyString) true None
             (new_process hooks_page) in
  r.2 = None ∧
  ask 0 isEnabled r.1 = Some false ∧
  ask 0 getRegistrySize r.1 = Some 0.
Proof. repeat split; reflexivity. Qed.

(** C10 as the code has it, on a new process: the effect of a hook instance
    with id [b]. *)
Lemma hook_enables_manager_and_never_disables_witness :
  let p := (registration_effect (Obj:=bool) 0 (Some "b") true None
              (new_process hooks_page)).1 in
  ask 0 isEnabled p = Some true ∧
  ask 0 (has "b") p = Some true ∧
  ask 0 isEnabled (process (hook_events [Unmount 0] app_b)) = Some true.
Proof.
  intros p.
  destruct (hook_enables_manager_and_never_disables (U:=list string) (Obj:=bool))
    as (Heffect & _ & Hkeep & _).
  assert (valid_instance (new_process (Obj:=bool) hooks_page)) as Hv by (intros a [=]).
  assert ("b" ≠ EmptyString) as Hb by discriminate.
  destruct (Heffect 0 "b" None (new_process hooks_page) Hb Hv) as (_ & _ & H3 & H4).
  split; [exact H3|]. split; [exact H4|].
  apply (Hkeep [Unmount 0] app_b 0). reflexivity.
Defined.

(** ** The scenarios of the specification, evaluated *)

(** Register [a] with content [X]: the query returns [X]; update with [Y]:
    the next query returns [Y]. *)
Example query_update_query :
  let st0 := register "a" plain_handler (setEnabled true (new_manager, page)) in
  let '(st1, r1) := getSchema "a" st0 in
  let '(st2, ok) := updateSchema stringify_bool (SchemaString "Y") "a" st1 in
  let '(st3, r3) := getSchema "a" st2 in
  (r1, ok, r3) = (Some "X", true, Some "Y").
Proof. reflexivity. Qed.

(** Three handlers, one registered twice, one unregistered. *)
Example registry_size_example :
  getRegistrySize
    (calls [Register "a" plain_handler; Register "a" custom_handler;
            Register "b" plain_handler; Register "c" plain_handler;
            Unregister "b"] (new_manager, page)) = 2.
Proof. reflexivity. Qed.

(** Enable, register, unregister, register again, disable: two connections
    were opened, and each was closed once. *)
Example two_activation_cycles :
  bridges (calls [SetEnabled true; Register "a" plain_handler; Unregister "a";
                  Register "a" plain_handler; SetEnabled false]
             (new_manager, page)).2 = [1; 1].
Proof. reflexivity. Qed.

(** Mount with id [b] and content [hello]; [setContent("world")]; the next
    render reads [world], [onContentChange] was called once with [world];
    after the unmount the manager no longer has [b], and is still enabled. *)
Example hook_scenario :
  let app1 := hook_event (SetContent 0 "world") app_b in
  let app2 := hook_event (Rerender 0 (Some "b") "hello" (Some logging_config)) app1 in
  let app3 := hook_event (Unmount 0) app2 in
  ask 0 (has "b") (process app_b) = Some true ∧
  hook_content 0 (world (env (process app_b))) = "hello" ∧
  hook_content 0 (world (env (process app1))) = "hello" ∧
  (getSchema "b" (default new_manager (heap (process app1) !! 0),
                  env (process app1))).2 = Some "world" ∧
  hook_content 0 (world (env (process app2))) = "world" ∧
  user (world (env (process app2))) = ["world"] ∧
  ask 0 (has "b") (process app3) = Some false ∧
  ask 0 isEnabled (process app3) = Some true ∧
  ¬ connected (env (process app3)).
Proof.
  repeat split; try reflexivity.
  intros [k Hk]. by destruct k as [|[|k]].
Qed.

(** Mounted with [enabled: false] the hook does not register; turning
    [enabled] on at a later render registers it. *)
Example hook_enabled_toggle :
  let off := {| config_enabled := Some false; config_onContentChange := None;
                config_renderPreview := None |} in
  let app0 := mount 0 (Some "b") "hello" (Some off)
                {| process := new_process (Obj:=bool) hooks_page; fibers := ∅ |} in
  let app1 := rerender 0 (Some "b") "hello" None app0 in
  ask 0 (has "b") (process app0) = Some false ∧
  ask 0 isEnabled (process app0) = Some false ∧
  ask 0 (has "b") (process app1) = Some true ∧
  ask 0 isEnabled (process app1) = Some true.
Proof. repeat split; reflexivity. Qed.

(** The empty string is no identifier for the hook: nothing is registered
    and the flag stays off. *)
Example hook_empty_id :
  let app := mount 0 (Some EmptyString) "hello" None
               {| process := new_process (Obj:=bool) hooks_page; fibers := ∅ |} in
  ask 0 getRegistrySize (process app) = Some 0 ∧
  ask 0 isEnabled (process app) = Some false.
Proof. split; reflexivity. Qed.

(** Nor is it a current-editing identifier for the preview: a handler
    registered under the empty string and just queried does not get its
    custom preview called. *)
Example preview_empty_id :
  let this := set_registry {[EmptyString := custom_handler]} manager_off in
  let '(st, r) := getSchema EmptyString (this, page) in
  r = Some "X" ∧
  currentEditingId st.1 = Some EmptyString ∧
  bridge_renderPreview stringify_bool (SchemaString "# Title") "preview" st =
    createDefaultPreview stringify_bool (SchemaString "# Title") "preview" st.
Proof. repeat split; reflexivity. Qed.

(** The built-in preview into [preview], then into [other] before the
    teardown was called: the second preview goes to the root of the first. *)
Example preview_reuses_root :
  let e := {| bridges := []; document := {["preview"; "other"]}; roots := [];
              world := "X" |} in
  let '(st1, _) := createDefaultPreview stringify_bool (SchemaString "one") "preview"
                     (manager_off, e) in
  let '(st2, t) := createDefaultPreview stringify_bool (SchemaObject true) "other" st1 in
  roots st2.2 = [{| root_container := "preview";
                    root_view := Some (preview_element "true");
                    root_unmounted := false |}] ∧
  t = Some DefaultTeardown ∧
  roots (call_teardown DefaultTeardown st2).2 =
    [{| root_container := "preview"; root_view := None; root_unmounted := true |}] ∧
  previewRoot (call_teardown DefaultTeardown st2).1 = None.
Proof. repeat split; reflexivity. Qed.

(** The further properties at concrete inputs. *)
Lemma cleanup_called_at_most_once_witness :
  Forall (λ n, n ≤ 1)
    (bridges (calls [SetEnabled true; Register "a" plain_handler; SetEnabled false]
                (new_manager, page)).2).
Proof.
  apply (cleanup_called_at_most_once page
           [SetEnabled true; Register "a" plain_handler; SetEnabled false]).
  - exact page_not_connected.
  - constructor.
Defined.

Lemma update_then_query_witness :
  (updateSchema stringify_bool (SchemaString "Y") "a" (manager_ac, page_connected)).2 = true ∧
  (getSchema "a"
     (updateSchema stringify_bool (SchemaString "Y") "a" (manager_ac, page_connected)).1).2 =
    Some "Y".
Proof.
  apply (update_then_query stringify_bool "a" "Y" plain_handler manager_ac page_connected).
  - reflexivity.
  - intros w. reflexivity.
Defined.

Lemma unregister_unknown_witness :
  unregister "zz" (manager_ac, page_connected) = (manager_ac, page_connected).
Proof.
  rewrite (unregister_unknown "zz" manager_ac page_connected); reflexivity.
Defined.

(** * Properties beyond the specification's claims *)

Section RegistryFacts.

Context {W Obj : Type}.
Implicit Types (this : SchemaEditorBridgeManager W Obj) (e : Env W).
Implicit Types (st : St W Obj) (handler : BubbleHandler W Obj).

Lemma set_registry_same this : set_registry (registry this) this = this.
Proof. by destruct this. Qed.

Lemma registry_unregister id st :
  registry (unregister id st).1 = delete id (registry st.1).
Proof. apply (registry_call (Unregister id) st). Qed.

Lemma registry_setEnabled flag st : registry (setEnabled flag st).1 = registry st.1.
Proof. apply (registry_call (SetEnabled flag) st). Qed.

(** X3.  [unregister] of an identifier that is not registered does nothing at
    all to a manager that keeps the invariant: not to the registry, and not
    to the connection either, also when the registry is empty. *)
Theorem unregister_unknown_noop (id : string) st :
  bridge_inv st → registry st.1 !! id = None → unregister id st = st.
Proof.
  destruct st as [this e]. intros [_ Hi] Hid. simpl in *.
  unfold unregister. simpl. rewrite delete_id, set_registry_same by done.
  case_bool_decide as Hsz; [|done].
  unfold stopBridge. simpl.
  destruct (cleanup this) as [k|] eqn:Hk; [|done].
  destruct Hi as [Hi _]. destruct Hi as [_ Hpos]; [eauto|lia].
Qed.

(** X4.  What [has] and [getRegistrySize] answer after [register], [unregister]
    and [setEnabled]: the identifier just registered is there, the one just
    unregistered is not, no other identifier is affected, and the size
    moves by one exactly when the identifier was new (was there). *)
Theorem has_after_register_unregister (id id' : string) handler (flag : bool) st :
  has id (register id handler st) = true ∧
  has id (unregister id st) = false ∧
  (id' ≠ id →
     has id' (register id handler st) = has id' st ∧
     has id' (unregister id st) = has id' st) ∧
  has id' (setEnabled flag st) = has id' st ∧
  getRegistrySize (register id handler st) =
    (if has id st then getRegistrySize st else S (getRegistrySize st)) ∧
  getRegistrySize (unregister id st) =
    (if has id st then getRegistrySize st - 1 else getRegistrySize st).
Proof.
  unfold has, getRegistrySize.
  rewrite registry_register, registry_unregister, registry_setEnabled.
  split; [|split; [|split; [|split; [|split]]]].
  - rewrite lookup_insert_eq. by apply bool_decide_eq_true.
  - rewrite lookup_delete_eq. apply bool_decide_eq_false. by intros [? ?].
  - intros Hne. by rewrite lookup_insert_ne, lookup_delete_ne.
  - done.
  - case_bool_decide as H.
    + destruct H as [x Hx]. by apply map_size_insert_Some.
    + apply map_size_insert_None. by apply eq_None_not_Some.
  - rewrite map_size_delete. case_bool_decide as H.
    + destruct H as [x Hx]. rewrite Hx. simpl. lia.
    + apply eq_None_not_Some in H. by rewrite H.
Qed.

(** X5.  One connection serves all handlers: on a manager that holds a
    connection, registering a handler opens no other one (the environment
    and the held connection are as before), and unregistering a handler
    while another one stays registered leaves the connection open and
    untouched. *)
Theorem connection_is_shared (id : string) handler st (k : nat) :
  cleanup st.1 = Some k →
  ((register id handler st).2 = st.2 ∧ cleanup (register id handler st).1 = Some k) ∧
  (∀ id', id' ≠ id → has id' st = true →
     (unregister id st).2 = st.2 ∧ cleanup (unregister id st).1 = Some k).
Proof.
  destruct st as [this e]. simpl. intros Hk. split.
  - unfold register, startBridge. simpl. rewrite Hk. by destruct (enabled this).
  - intros id' Hne [x Hx]%bool_decide_eq_true. simpl in Hx.
    unfold unregister. simpl. case_bool_decide as Hsz; [|done].
    apply map_size_empty_iff in Hsz.
    assert (delete id (registry this) !! id' = Some x) as Hd
      by by rewrite lookup_delete_ne.
    by rewrite Hsz, lookup_empty in Hd.
Qed.

End RegistryFacts.

Section EventFacts.

Context {W Obj : Type}.
Variable JSON_stringify : Obj → nat → string.
Implicit Types (this : SchemaEditorBridgeManager W Obj) (e : Env W).
Implicit Types (st : St W Obj) (handler : BubbleHandler W Obj).
Implicit Types (schema : SchemaValue Obj) (ev : Event W Obj).

(** ** What the callbacks leave alone *)

(** The part of the state [bridge_inv] reads. *)
Lemma bridge_inv_frame st st' :
  registry st'.1 = registry st.1 → cleanup st'.1 = cleanup st.1 →
  enabled st'.1 = enabled st.1 → bridges st'.2 = bridges st.2 →
  bridge_inv st → bridge_inv st'.
Proof.
  intros Hr Hc He Hb [H1 H2]. split.
  - intros k. unfold bridge_open. rewrite Hb, Hc. apply H1.
  - by rewrite Hc, He, Hr.
Qed.

Lemma createDefaultPreview_frame schema containerId st :
  let st' := (createDefaultPreview JSON_stringify schema containerId st).1 in
  registry st'.1 = registry st.1 ∧ cleanup st'.1 = cleanup st.1 ∧
  enabled st'.1 = enabled st.1 ∧ bridges st'.2 = bridges st.2 ∧
  currentEditingId st'.1 = currentEditingId st.1 ∧ world st'.2 = world st.2.
Proof.
  destruct st as [this e]. unfold createDefaultPreview.
  destruct (getElementById containerId e); [|done]. simpl.
  by destruct (previewRoot this).
Qed.

Lemma bridge_renderPreview_cases schema containerId st :
  (∃ w t, bridge_renderPreview JSON_stringify schema containerId st =
            ((st.1, set_world w st.2), t)) ∨
  bridge_renderPreview JSON_stringify schema containerId st =
    createDefaultPreview JSON_stringify schema containerId st.
Proof.
  destruct st as [this e]. unfold bridge_renderPreview.
  destruct (truthy (currentEditingId this)); [|by right].
  destruct (_ ≫= renderPreview) as [custom|]; [|by right].
  left. destruct (custom schema containerId (world e)) as [w t]. eauto.
Qed.

Lemma event_frame ev st :
  (∀ c, ev ≠ Method c) →
  registry (event JSON_stringify ev st).1 = registry st.1 ∧
  cleanup (event JSON_stringify ev st).1 = cleanup st.1 ∧
  enabled (event JSON_stringify ev st).1 = enabled st.1 ∧
  bridges (event JSON_stringify ev st).2 = bridges st.2.
Proof.
  intros Hm. destruct st as [this e].
  destruct ev as [c|params|schema params|schema containerId|t]; cbn [event].
  - by destruct (Hm c).
  - unfold getSchema. by destruct (registry this !! params).
  - unfold updateSchema. by destruct (registry this !! params).
  - destruct (bridge_renderPreview_cases schema containerId (this, e))
      as [(w & t & ->)| ->]; [done|].
    destruct (createDefaultPreview_frame schema containerId (this, e))
      as (? & ? & ? & ? & _). done.
  - destruct t as [f|]; [done|]. unfold call_teardown, default_teardown.
    by destruct (previewRoot this).
Qed.

Lemma event_inv ev st : bridge_inv st → bridge_inv (event JSON_stringify ev st).
Proof.
  intros H. destruct ev as [c| | | |] eqn:E.
  - by apply call_inv.
  - rewrite <-E. destruct (event_frame ev st) as (?&?&?&?); [by subst|].
    by eapply bridge_inv_frame.
  - rewrite <-E. destruct (event_frame ev st) as (?&?&?&?); [by subst|].
    by eapply bridge_inv_frame.
  - rewrite <-E. destruct (event_frame ev st) as (?&?&?&?); [by subst|].
    by eapply bridge_inv_frame.
  - rewrite <-E. destruct (event_frame ev st) as (?&?&?&?); [by subst|].
    by eapply bridge_inv_frame.
Qed.

Lemma events_snoc evs ev st :
  events JSON_stringify (evs ++ [ev]) st =
  event JSON_stringify ev (events JSON_stringify evs st).
Proof. unfold events. by rewrite foldl_snoc. Qed.

Lemma events_inv evs st : bridge_inv st → bridge_inv (events JSON_stringify evs st).
Proof.
  intros H. induction evs as [|ev evs IH] using rev_ind; [done|].
  rewrite events_snoc. by apply event_inv.
Qed.

(** X6.  The invariant of the connection holds whatever happens to the manager,
    not only under its three mutating methods: the host's queries, updates
    and previews and the teardown functions handed out change neither the
    registry, nor the flag, nor a connection.  After every event of any
    sequence on a new manager, a connection is open iff the flag is on and
    the registry is not empty, and it is the one the manager holds. *)
Theorem connection_invariant_under_all_events
    (e0 : Env W) (evs : list (Event W Obj)) (n : nat) :
  ¬ connected e0 →
  let st := events JSON_stringify (take n evs) (new_manager, e0) in
  (connected st.2 ↔ isEnabled st = true ∧ 0 < getRegistrySize st) ∧
  (∀ k, bridge_open st.2 k ↔ cleanup st.1 = Some k).
Proof.
  intros Hno st. apply bridge_inv_connected.
  subst st. apply events_inv. by apply bridge_inv_new.
Qed.

(** ** The preview root *)

Lemma roots_call c st :
  roots (call c st).2 = roots st.2 ∧ previewRoot (call c st).1 = previewRoot st.1.
Proof.
  assert (∀ st, roots (startBridge st).2 = roots st.2 ∧
                previewRoot (startBridge st).1 = previewRoot st.1) as Hstart.
  { intros [this e]. unfold startBridge; simpl. by destruct (cleanup this). }
  assert (∀ st, roots (stopBridge st).2 = roots st.2 ∧
                previewRoot (stopBridge st).1 = previewRoot st.1) as Hstop.
  { intros [this e]. unfold stopBridge; simpl. by destruct (cleanup this). }
  destruct st as [this e]. destruct c as [flag|id handler|id]; simpl.
  - unfold setEnabled.
    destruct (flag && negb (enabled this) && _); [apply Hstart|].
    destruct (negb flag && enabled this); [apply Hstop|done].
  - unfold register. simpl. destruct (enabled this); [apply Hstart|done].
  - unfold unregister. simpl. case_bool_decide; [apply Hstop|done].
Qed.

Lemma createDefaultPreview_shows schema containerId st :
  preview_root_live st →
  containerId ∈ document st.2 →
  let st' := (createDefaultPreview JSON_stringify schema containerId st).1 in
  ∃ root x,
    previewRoot st'.1 = Some root ∧ roots st'.2 !! root = Some x ∧
    root_unmounted x = false ∧
    root_view x = Some (preview_element (schema_content JSON_stringify schema)).
Proof.
  destruct st as [this e]. intros Hlive Hin. simpl in Hin.
  unfold createDefaultPreview. rewrite getElementById_Some by done. simpl.
  destruct (previewRoot this) as [root|] eqn:Hroot; simpl.
  - destruct (Hlive root Hroot) as (x & Hx & Hm). simpl in Hx.
    exists root. eexists. split; [done|]. split.
    + rewrite list_lookup_alter_eq, Hx. done.
    + done.
  - exists (length (roots e)). eexists. split; [done|]. split.
    + rewrite list_lookup_alter_eq, lookup_app_r, Nat.sub_diag by done. done.
    + done.
Qed.

Lemma createDefaultPreview_live schema containerId st :
  preview_root_live st →
  preview_root_live (createDefaultPreview JSON_stringify schema containerId st).1.
Proof.
  intros Hlive.
  destruct (decide (containerId ∈ document st.2)) as [Hin|Hout].
  - destruct (createDefaultPreview_shows schema containerId st Hlive Hin)
      as (root & x & Hr & Hx & Hm & _).
    intros root' Hr'. rewrite Hr in Hr'. injection Hr' as <-. eauto.
  - destruct st as [this e]. simpl in Hout. apply getElementById_None in Hout.
    unfold createDefaultPreview. by rewrite Hout.
Qed.

Lemma event_live ev st :
  preview_root_live st → preview_root_live (event JSON_stringify ev st).
Proof.
  intros Hlive.
  destruct ev as [c|params|schema params|schema containerId|t]; cbn [event].
  - intros root. destruct (roots_call c st) as [-> ->]. apply Hlive.
  - destruct st as [this e]. unfold getSchema.
    by destruct (registry this !! params).
  - destruct st as [this e]. unfold updateSchema.
    by destruct (registry this !! params).
  - destruct (bridge_renderPreview_cases schema containerId st)
      as [(w & t & ->)| ->]; [done|].
    by apply createDefaultPreview_live.
  - destruct st as [this e]. destruct t as [f|]; [done|].
    unfold call_teardown, default_teardown.
    destruct (previewRoot this); [|done]. by intros root [=].
Qed.

(** X7.  The manager never keeps a root it has unmounted, so the built-in
    preview never renders into an unmounted root: after any sequence of
    events on a new manager the root it keeps, if any, exists and is
    mounted, and a built-in preview into an existing container ends with
    the manager's root mounted and showing the read-only element for the
    value. *)
Theorem preview_root_stays_live (e0 : Env W) (evs : list (Event W Obj)) :
  let st := events JSON_stringify evs (new_manager, e0) in
  preview_root_live st ∧
  (∀ schema containerId,
     containerId ∈ document st.2 →
     let st' := (createDefaultPreview JSON_stringify schema containerId st).1 in
     ∃ root x,
       previewRoot st'.1 = Some root ∧ roots st'.2 !! root = Some x ∧
       root_unmounted x = false ∧
       root_view x = Some (preview_element (schema_content JSON_stringify schema))).
Proof.
  intros st.
  assert (preview_root_live st) as Hlive.
  { subst st. induction evs as [|ev evs IH] using rev_ind.
    - by intros root [=].
    - rewrite events_snoc. by apply event_live. }
  split; [done|]. intros schema containerId Hin.
  by apply createDefaultPreview_shows.
Qed.

(** ** Query, then preview *)

(** X8.  The preview goes to the handler the host asked about last.  After a
    query for a registered, non-empty identifier whose handler has a custom
    renderer, the preview is that renderer's; after a query for an
    identifier that is not registered, the preview is the built-in one,
    whichever identifier was being edited before. *)
Theorem preview_follows_last_query (id : string) schema (containerId : string) st :
  (∀ handler custom,
     registry st.1 !! id = Some handler → renderPreview handler = Some custom →
     id ≠ EmptyString →
     bridge_renderPreview JSON_stringify schema containerId (getSchema id st).1 =
       (((getSchema id st).1.1,
         set_world (custom schema containerId (world st.2)).1 st.2),
        HandlerTeardown <$> (custom schema containerId (world st.2)).2)) ∧
  (registry st.1 !! id = None →
     bridge_renderPreview JSON_stringify schema containerId (getSchema id st).1 =
       createDefaultPreview JSON_stringify schema containerId (getSchema id st).1).
Proof.
  destruct st as [this e]. simpl. split.
  - intros handler custom Hreg Hcustom Hne. unfold getSchema. rewrite Hreg. simpl.
    unfold bridge_renderPreview. simpl.
    apply truthy_Some in Hne. simpl in Hne. rewrite Hne. simpl.
    rewrite Hreg. simpl. rewrite Hcustom.
    by destruct (custom schema containerId (world e)).
  - intros Hreg. unfold getSchema. rewrite Hreg. done.
Qed.

End EventFacts.

Section SingletonFacts.

Context {U Obj : Type}.
Implicit Types (this : SchemaEditorBridgeManager (World U) Obj).
Implicit Types (p : Process (World U) Obj) (app : App U Obj).
Implicit Types (rp : option (Renderer U Obj)).

(** ** Objects that [destroy] dropped *)

Lemma dead_unregister id this (e : Env (World U)) :
  registry this = ∅ → cleanup this = None → unregister id (this, e) = (this, e).
Proof.
  intros Hr Hc. unfold unregister. simpl. rewrite Hr, delete_empty, <-Hr.
  rewrite set_registry_same, Hr, map_size_empty. simpl.
  unfold stopBridge. simpl. by rewrite Hc.
Qed.

Lemma invoke_same a (method : St (World U) Obj → St (World U) Obj) p this :
  heap p !! a = Some this → method (this, env p) = (this, env p) →
  invoke a method p = p.
Proof.
  intros Ha Hm. unfold invoke. rewrite Ha, Hm, list_insert_id by done.
  by destruct p.
Qed.

Lemma destroy_eq p a this :
  instance p = Some a → heap p !! a = Some this →
  destroy p =
    {| instance := None;
       heap := <[a := set_enabled (enabled this) new_manager]> (heap p);
       env := match previewRoot this with Some root => unmount root | None => λ e, e end
                match cleanup this with
                | Some k => call_cleanup k (env p)
                | None => env p
                end |}.
Proof.
  intros Ha Hthis. unfold destroy, invoke. rewrite Ha, Hthis.
  by rewrite destroy_instance_eq.
Qed.

(** X9.  A reference to the manager taken before [destroy()] is harmless
    afterwards for what the hook does with it: [unregister] through it
    changes nothing, neither before nor after the next [getInstance()]
    built the new singleton. *)
Theorem stale_unregister_after_destroy p (a : nat) this (id : string) :
  instance p = Some a → heap p !! a = Some this →
  invoke a (unregister id) (destroy p) = destroy p ∧
  invoke a (unregister id) (getInstance (destroy p)).2 = (getInstance (destroy p)).2.
Proof.
  intros Ha Hthis. rewrite (destroy_eq p a this) by done.
  assert (a < length (heap p)) as Hlt by by eapply lookup_lt_Some.
  split.
  - eapply invoke_same.
    + simpl. by apply list_lookup_insert_eq.
    + by apply dead_unregister.
  - unfold getInstance. simpl. eapply invoke_same.
    + simpl. rewrite lookup_app_l by (by rewrite length_insert).
      by apply list_lookup_insert_eq.
    + by apply dead_unregister.
Qed.

(** ** The invariant of the whole process *)

Lemma process_inv_new (e : Env (World U)) :
  ¬ connected e → process_inv (new_process (Obj:=Obj) e).
Proof.
  intros Hno. split; [by intros a [=]|]. split; [by intros a this [=]|].
  split; [by intros a this [=]|]. done.
Qed.

Lemma process_inv_on_world (f : World U → World U) p :
  process_inv p → process_inv (on_world f p).
Proof.
  intros (Hv & Hdead & Hlive & Hnone). split; [done|]. split; [done|].
  split; [|done]. intros a this Ha Hthis.
  eapply (bridge_inv_frame (this, env p)); [done..|]. by apply (Hlive a).
Qed.

Lemma process_inv_getInstance p : process_inv p → process_inv (getInstance p).2.
Proof.
  intros Hinv. pose proof Hinv as (Hv & Hdead & Hlive & Hnone). unfold getInstance.
  destruct (instance p) as [a|] eqn:Hi; [exact Hinv|]. simpl.
  split; [|split; [|split]].
  - intros a [= <-]. simpl. rewrite lookup_app_r, Nat.sub_diag by done. eauto.
  - simpl. intros a this Ha Hne.
    destruct (decide (a < length (heap p))) as [Hlt|Hge].
    + rewrite lookup_app_l in Ha by done. by apply (Hdead a).
    + destruct (decide (a = length (heap p))) as [->|Hne']; [done|].
      apply lookup_lt_Some in Ha. rewrite length_app in Ha. simpl in Ha. lia.
  - simpl. intros a this [= <-] Ha.
    rewrite lookup_app_r, Nat.sub_diag in Ha by done. injection Ha as <-.
    apply bridge_inv_new. by apply Hnone.
  - done.
Qed.

Lemma process_inv_invoke_instance a (method : St (World U) Obj → St (World U) Obj) p :
  instance p = Some a →
  (∀ st, bridge_inv st → bridge_inv (method st)) →
  process_inv p → process_inv (invoke a method p).
Proof.
  intros Ha Hm (Hv & Hdead & Hlive & Hnone).
  destruct (Hv a Ha) as [this Hthis].
  unfold invoke. rewrite Hthis.
  destruct (method (this, env p)) as [this' e'] eqn:E.
  assert (a < length (heap p)) as Hlt by by eapply lookup_lt_Some.
  split; [|split; [|split]]; simpl.
  - intros b Hb. simpl in *. apply lookup_lt_is_Some. rewrite length_insert.
    apply lookup_lt_is_Some. by apply Hv.
  - intros b that Hb Hne. rewrite list_lookup_insert_ne in Hb by congruence.
    by apply (Hdead b).
  - intros b that Hb Hthat. rewrite Ha in Hb. injection Hb as <-.
    rewrite list_lookup_insert_eq in Hthat by done. injection Hthat as <-.
    rewrite <-E. apply Hm. by apply (Hlive a).
  - by rewrite Ha.
Qed.

Lemma process_inv_invoke_unregister a id p :
  process_inv p → process_inv (invoke a (unregister id) p).
Proof.
  intros Hinv. destruct (decide (instance p = Some a)) as [Ha|Hne].
  - apply process_inv_invoke_instance; [done| |done].
    intros st. apply unregister_inv.
  - destruct (heap p !! a) as [this|] eqn:Hthis.
    + destruct Hinv as (Hv & Hdead & Hlive & Hnone).
      destruct (Hdead a this Hthis Hne) as [Hr Hc].
      rewrite (invoke_same a _ p this); [done..|]. by apply dead_unregister.
    + unfold invoke. by rewrite Hthis.
Qed.

Lemma process_inv_destroy p : process_inv p → process_inv (destroy p).
Proof.
  intros Hinv. pose proof Hinv as (Hv & Hdead & Hlive & Hnone).
  destruct (instance p) as [a|] eqn:Ha; [|unfold destroy; by rewrite Ha].
  destruct (Hv a Ha) as [this Hthis].
  rewrite (destroy_eq p a this) by done.
  assert (a < length (heap p)) as Hlt by by eapply lookup_lt_Some.
  split; [by intros b [=]|]. split; [|split; [by intros b that [=]|]]; simpl.
  - intros b that Hb _. destruct (decide (a = b)) as [<-|Hne].
    + rewrite list_lookup_insert_eq in Hb by done. by injection Hb as <-.
    + rewrite list_lookup_insert_ne in Hb by done. apply (Hdead b); [done|congruence].
  - intros _ [j Hj]. destruct (Hlive a this eq_refl Hthis) as [Hc _].
    assert (bridge_open match cleanup this with
                        | Some k => call_cleanup k (env p) | None => env p end j) as Hj'.
    { unfold bridge_open in *. by destruct (previewRoot this). }
    destruct (cleanup this) as [k|] eqn:Hk.
    + apply bridge_open_cleanup in Hj' as [Hopen Hne].
      apply Hc in Hopen. simpl in Hopen. congruence.
    + apply Hc in Hj'. simpl in Hj'. congruence.
Qed.

Lemma process_inv_effect_cleanup c p : process_inv p → process_inv (effect_cleanup c p).
Proof.
  destruct c as [[manager id]|]; [|done]. apply process_inv_invoke_unregister.
Qed.

Lemma process_inv_registration_effect i id enabled rp p :
  process_inv p → process_inv (registration_effect i id enabled rp p).1.
Proof.
  intros Hinv0. pose proof Hinv0 as (Hv & _).
  destruct (getInstance_lookup p Hv) as [Hi _].
  pose proof (process_inv_getInstance p Hinv0) as Hinv.
  unfold registration_effect.
  revert Hi Hinv. destruct (getInstance p) as [manager p0]. simpl. intros Hi Hinv.
  destruct id as [s|]; [|done].
  destruct (negb (truthy (Some s)) || negb enabled).
  - destruct (truthy (Some s) && _); [|done]. simpl.
    by apply process_inv_invoke_unregister.
  - simpl. apply process_inv_invoke_instance.
    + by rewrite instance_invoke.
    + intros st. apply register_inv.
    + apply process_inv_invoke_instance; [done| |done].
      intros st. apply setEnabled_inv.
Qed.

Lemma process_inv_hook_event ev app :
  process_inv (process app) → process_inv (process (hook_event ev app)).
Proof.
  intros Hinv. destruct ev as [i id init config|i id init config|i|i newContent]; simpl.
  - unfold mount.
    match goal with
    | |- context [registration_effect ?i ?id ?en ?rp ?p] =>
        pose proof (process_inv_registration_effect i id en rp p) as H;
        destruct (registration_effect i id en rp p) as [p' c]
    end.
    simpl in *. apply H. by do 2 apply process_inv_on_world.
  - unfold rerender. destruct (fibers app !! i) as [f|]; [|done].
    case_bool_decide as Hsame.
    + destruct (bool_decide (dep_initialContent f = init)); simpl;
        by repeat apply process_inv_on_world.
    + match goal with
      | |- context [registration_effect ?i ?id ?en ?rp ?p] =>
          pose proof (process_inv_registration_effect i id en rp p) as H;
          destruct (registration_effect i id en rp p) as [p' c]
      end.
      simpl in *. apply H.
      destruct (bool_decide (dep_initialContent f = init));
        [|apply process_inv_on_world];
        by apply process_inv_effect_cleanup, process_inv_on_world.
  - unfold unmount_hook. destruct (fibers app !! i) as [f|]; [|done]. simpl.
    by apply process_inv_effect_cleanup.
  - by apply process_inv_on_world.
Qed.

Lemma process_inv_app_event ev app :
  process_inv (process app) → process_inv (process (app_event ev app)).
Proof.
  intros Hinv. destruct ev as [ev| |c]; simpl.
  - by apply process_inv_hook_event.
  - by apply process_inv_destroy.
  - pose proof Hinv as (Hv & _).
    destruct (getInstance_lookup (process app) Hv) as [Hi _].
    apply process_inv_getInstance in Hinv. revert Hi Hinv.
    destruct (getInstance (process app)) as [manager p0]. simpl. intros Hi Hinv.
    apply process_inv_invoke_instance; [done| |done].
    intros st. apply call_inv.
Qed.

Lemma app_events_snoc evs ev app :
  app_events (evs ++ [ev]) app = app_event ev (app_events evs app).
Proof. unfold app_events. by rewrite foldl_snoc. Qed.

(** X10.  Whatever the hook instances do (mount, re-render, unmount, local
    edits), whenever [destroy()] is called in between, and whatever methods
    are called on [getInstance()]: after every event, a connection to the
    host is open iff there is a singleton that is enabled and has a handler;
    the open connection is the one the singleton holds (so at most one is
    open); and every manager object that was dropped has an empty registry
    and holds no connection. *)
Theorem singleton_connection_invariant
    (e0 : Env (World U)) (evs : list (AppEvent U Obj)) (n : nat) :
  ¬ connected e0 →
  let p := process (app_events (take n evs) (new_app e0)) in
  (connected (env p) ↔
     ∃ a this, instance p = Some a ∧ heap p !! a = Some this ∧
               enabled this = true ∧ 0 < size (registry this)) ∧
  (∀ k, bridge_open (env p) k ↔
     ∃ a this, instance p = Some a ∧ heap p !! a = Some this ∧
               cleanup this = Some k) ∧
  (∀ a this, heap p !! a = Some this → instance p ≠ Some a →
     registry this = ∅ ∧ cleanup this = None).
Proof.
  intros Hno p.
  assert (process_inv p) as (Hv & Hdead & Hlive & Hnone).
  { subst p. induction (take n evs) as [|ev evs' IH] using rev_ind.
    - by apply process_inv_new.
    - rewrite app_events_snoc. by apply process_inv_app_event. }
  split; [|split; [|done]].
  - destruct (instance p) as [a|] eqn:Ha.
    + destruct (Hv a Ha) as [this Hthis].
      destruct (bridge_inv_connected _ (Hlive a this eq_refl Hthis)) as [Hc _].
      unfold isEnabled, getRegistrySize in Hc. simpl in Hc. rewrite Hc. split.
      * intros [? ?]. by exists a, this.
      * intros (a' & this' & [= <-] & Hthis' & ? & ?).
        rewrite Hthis in Hthis'. by injection Hthis' as <-.
    + split.
      * intros Hc. by destruct (Hnone eq_refl).
      * by intros (a & this & [=] & _).
  - intros k. destruct (instance p) as [a|] eqn:Ha.
    + destruct (Hv a Ha) as [this Hthis].
      destruct (Hlive a this eq_refl Hthis) as [Hc _]. rewrite (Hc k). simpl. split.
      * intros ?. by exists a, this.
      * intros (a' & this' & [= <-] & Hthis' & ?).
        rewrite Hthis in Hthis'. by injection Hthis' as <-.
    + split.
      * intros Hk. destruct (Hnone eq_refl). by exists k.
      * by intros (a & this & [=] & _).
Qed.

End SingletonFacts.

Section LifecycleFacts.

Context {U Obj : Type}.
Implicit Types (this : SchemaEditorBridgeManager (World U) Obj).
Implicit Types (p : Process (World U) Obj) (app : App U Obj).
Implicit Types (rp : option (Renderer U Obj)) (st : St (World U) Obj).

(** ** Lookups through the methods *)

Lemma has_register_eq id handler st : has id (register id handler st) = true.
Proof.
  unfold has. rewrite registry_register, lookup_insert_eq.
  by apply bool_decide_eq_true.
Qed.

Lemma has_register_ne id id' handler st :
  id' ≠ id → has id' (register id handler st) = has id' st.
Proof. intros H. unfold has. by rewrite registry_register, lookup_insert_ne. Qed.

Lemma has_unregister_eq id st : has id (unregister id st) = false.
Proof.
  unfold has. rewrite registry_unregister, lookup_delete_eq.
  apply bool_decide_eq_false. by intros [? ?].
Qed.

Lemma has_unregister_ne id id' st :
  id' ≠ id → has id' (unregister id st) = has id' st.
Proof. intros H. unfold has. by rewrite registry_unregister, lookup_delete_ne. Qed.

Lemma has_setEnabled id flag st : has id (setEnabled flag st) = has id st.
Proof. unfold has. by rewrite registry_setEnabled. Qed.

Lemma has_env id this (e e' : Env (World U)) : has id (this, e) = has id (this, e').
Proof. done. Qed.

Lemma ask_Some {A} a (f : St (World U) Obj → A) p x :
  ask a f p = Some x → ∃ this, heap p !! a = Some this ∧ f (this, env p) = x.
Proof.
  unfold ask. destruct (heap p !! a) as [this|]; [|done].
  intros [= <-]. eauto.
Qed.

Lemma ask_lookup {A} a (f : St (World U) Obj → A) p this :
  heap p !! a = Some this → ask a f p = Some (f (this, env p)).
Proof. intros H. unfold ask. by rewrite H. Qed.

Lemma getInstance_instance p a :
  instance p = Some a → getInstance p = (a, p).
Proof. intros H. unfold getInstance. by rewrite H. Qed.

(** ** The world under the manager's methods *)

Lemma world_call c st : world (call c st).2 = world st.2.
Proof.
  assert (∀ st, world (startBridge st).2 = world st.2) as Hstart.
  { intros [this e]. unfold startBridge; simpl. by destruct (cleanup this). }
  assert (∀ st, world (stopBridge st).2 = world st.2) as Hstop.
  { intros [this e]. unfold stopBridge; simpl. by destruct (cleanup this). }
  destruct st as [this e]. destruct c as [flag|id handler|id]; simpl.
  - unfold setEnabled.
    destruct (flag && negb (enabled this) && _); [apply Hstart|].
    destruct (negb flag && enabled this); [apply Hstop|done].
  - unfold register. simpl. destruct (enabled this); [apply Hstart|done].
  - unfold unregister. simpl. case_bool_decide; [apply Hstop|done].
Qed.

Lemma world_invoke a (method : St (World U) Obj → St (World U) Obj) p :
  (∀ st, world (method st).2 = world st.2) →
  world (env (invoke a method p)) = world (env p).
Proof.
  intros H. unfold invoke. destruct (heap p !! a) as [this|]; [|done].
  specialize (H (this, env p)). by destruct (method (this, env p)).
Qed.

Lemma world_effect_cleanup c p : world (env (effect_cleanup c p)) = world (env p).
Proof.
  destruct c as [[manager id]|]; [|done]. simpl.
  apply world_invoke. intros st. apply (world_call (Unregister id)).
Qed.

Lemma world_registration_effect i id enabled rp p :
  world (env (registration_effect i id enabled rp p).1) = world (env p).
Proof.
  unfold registration_effect.
  assert (world (env (getInstance p).2) = world (env p)) as Hg.
  { unfold getInstance. by destruct (instance p). }
  destruct (getInstance p) as [manager p0]. simpl in Hg.
  destruct id as [s|]; [|done].
  destruct (negb (truthy (Some s)) || negb enabled).
  - destruct (truthy (Some s) && _); [|done]. simpl. rewrite <-Hg.
    apply world_invoke. intros st. apply (world_call (Unregister s)).
  - simpl. rewrite <-Hg.
    rewrite world_invoke; [|intros st; apply (world_call (Register s _))].
    apply world_invoke. intros st. apply (world_call (SetEnabled true)).
Qed.

(** ** Unmount *)

Lemma mount_enabled_eq i s init config app :
  s ≠ EmptyString → enabled_of config = true → valid_instance (process app) →
  let p1 := on_world (setContentInternal i init)
              (on_world (hook_render true i init config) (process app)) in
  let manager := (getInstance (process app)).1 in
  mount i (Some s) init config app =
    {| process := (registration_effect i (Some s) true
                     (config ≫= config_renderPreview) p1).1;
       fibers := <[i := {| dep_initialContent := init; dep_id := Some s;
                           dep_enabled := true;
                           fiber_cleanup := Some (manager, s) |}]> (fibers app) |} ∧
  instance (registration_effect i (Some s) true
              (config ≫= config_renderPreview) p1).1 = Some manager ∧
  ask manager isEnabled (registration_effect i (Some s) true
              (config ≫= config_renderPreview) p1).1 = Some true ∧
  ask manager (has s) (registration_effect i (Some s) true
              (config ≫= config_renderPreview) p1).1 = Some true.
Proof.
  intros Hs Hen Hv p1 manager.
  assert (valid_instance p1) as Hv1 by done.
  destruct (registration_effect_enabled i s (config ≫= config_renderPreview) p1 Hs Hv1)
    as (Heq & Hi & He & Hh).
  assert ((getInstance p1).1 = manager) as Hm.
  { subst manager p1. unfold getInstance. simpl. by destruct (instance (process app)). }
  rewrite Hm in Heq, Hi, He, Hh.
  split; [|done]. unfold mount. rewrite Hen. fold p1. by rewrite Heq.
Qed.

(** X11.  Unmounting a hook instance unregisters the identifier its effect had
    registered, through the manager reference the effect had taken: the
    manager no longer has it, its other handlers and its flag are as
    before.  In particular a hook mounted with a non-empty identifier and
    enabled, then unmounted, leaves the singleton without that identifier
    and still enabled. *)
Theorem unmount_unregisters (i : nat) app :
  (∀ f manager id this,
     fibers app !! i = Some f → fiber_cleanup f = Some (manager, id) →
     heap (process app) !! manager = Some this →
     let app' := unmount_hook i app in
     ask manager (has id) (process app') = Some false ∧
     (∀ id', id' ≠ id →
        ask manager (has id') (process app') = ask manager (has id') (process app)) ∧
     ask manager isEnabled (process app') = ask manager isEnabled (process app) ∧
     fibers app' !! i = None) ∧
  (∀ s init config,
     s ≠ EmptyString → enabled_of config = true → valid_instance (process app) →
     let app' := unmount_hook i (mount i (Some s) init config app) in
     ∃ manager,
       instance (process app') = Some manager ∧
       ask manager (has s) (process app') = Some false ∧
       ask manager isEnabled (process app') = Some true).
Proof.
  assert (∀ app f manager id this,
     fibers app !! i = Some f → fiber_cleanup f = Some (manager, id) →
     heap (process app) !! manager = Some this →
     process (unmount_hook i app) = invoke manager (unregister id) (process app) ∧
     fibers (unmount_hook i app) !! i = None) as Hun.
  { intros app0 f manager id this Hf Hc Hthis. unfold unmount_hook.
    rewrite Hf, Hc. simpl. split; [done|]. apply lookup_delete_eq. }
  split.
  - intros f manager id this Hf Hc Hthis app'.
    destruct (Hun app f manager id this Hf Hc Hthis) as [Hp Hfib].
    subst app'. rewrite Hp. split; [|split; [|split; [|done]]].
    + rewrite (ask_invoke_eq _ _ _ _ _ Hthis). by rewrite has_unregister_eq.
    + intros id' Hne. rewrite (ask_invoke_eq _ _ _ _ _ Hthis), (ask_lookup _ _ _ _ Hthis).
      by rewrite has_unregister_ne.
    + rewrite (ask_invoke_eq _ _ _ _ _ Hthis), (ask_lookup _ _ _ _ Hthis).
      unfold isEnabled. by rewrite enabled_unregister.
  - intros s init config Hs Hen Hv app'.
    destruct (mount_enabled_eq i s init config app Hs Hen Hv) as (Heq & Hi & He & Hh).
    set (manager := (getInstance (process app)).1) in *.
    destruct (ask_Some _ _ _ _ Hh) as (this & Hthis & _).
    subst app'. rewrite Heq.
    match goal with
    | |- context [unmount_hook i ?a] =>
        edestruct (Hun a) as [Hp _];
          [simpl; apply lookup_insert_eq|reflexivity|exact Hthis|]
    end.
    rewrite Hp. simpl. exists manager.
    split; [by rewrite instance_invoke|]. split.
    + rewrite (ask_invoke_eq _ _ _ _ _ Hthis). by rewrite has_unregister_eq.
    + apply isEnabled_invoke; [|done]. intros st. by rewrite enabled_unregister.
Qed.

(** ** A new identifier *)

(** X12.  When a mounted, registered hook instance is rendered with another
    non-empty identifier (still enabled, its manager still the singleton),
    the old identifier is unregistered and the new one registered, and the
    cleanup kept for the instance is the one of the new identifier. *)
Theorem rerender_with_new_id (i : nat) (old new init : string) config app f
    (manager : nat) this :
  fibers app !! i = Some f → dep_id f = Some old →
  fiber_cleanup f = Some (manager, old) →
  instance (process app) = Some manager → heap (process app) !! manager = Some this →
  new ≠ EmptyString → new ≠ old → enabled_of config = true →
  let app' := rerender i (Some new) init config app in
  ask manager (has old) (process app') = Some false ∧
  ask manager (has new) (process app') = Some true ∧
  ask manager isEnabled (process app') = Some true ∧
  fiber_cleanup <$> fibers app' !! i = Some (Some (manager, new)).
Proof.
  intros Hf Hold Hc Hi Hthis Hnew Hne Hen app'. subst app'.
  unfold rerender. rewrite Hf, Hen, Hold, Hc.
  rewrite bool_decide_eq_false_2 by (intros [[=] _]; congruence).
  set (p0 := on_world (hook_render false i init config) (process app)).
  set (p1 := effect_cleanup (Some (manager, old)) p0).
  set (p2 := if bool_decide (dep_initialContent f = init) then p1
             else on_world (setContentInternal i init) p1).
  assert (heap p0 !! manager = Some this) as H0 by done.
  destruct (invoke_lookup manager (unregister old) p0 this H0) as (H1 & _ & Hi1).
  assert (heap p2 !! manager = Some (unregister old (this, env p0)).1) as H2.
  { subst p2 p1. unfold effect_cleanup. destruct (bool_decide _); exact H1. }
  assert (instance p2 = Some manager) as Hi2.
  { subst p2 p1. unfold effect_cleanup.
    destruct (bool_decide _); [|unfold on_world; cbn [instance]];
      rewrite instance_invoke; exact Hi. }
  assert (valid_instance p2) as Hv2.
  { intros a Ha. rewrite Hi2 in Ha. injection Ha as <-. eauto. }
  destruct (registration_effect_enabled i new (config ≫= config_renderPreview) p2 Hnew Hv2)
    as (Heq & _ & He & Hh).
  rewrite (getInstance_instance p2 manager Hi2) in Heq, He, Hh.
  cbn [fst snd] in Heq, He, Hh.
  rewrite Heq in He, Hh |- *. cbn [fst snd] in He, Hh.
  cbn [process fibers]. split; [|split; [done|split; [done|]]].
  - destruct (invoke_lookup manager (setEnabled true) p2 _ H2) as (H3 & _ & _).
    rewrite (ask_invoke_eq _ _ _ _ _ H3).
    rewrite has_register_ne by done.
    unfold has. cbn [fst]. rewrite registry_setEnabled. cbn [fst].
    by rewrite registry_unregister, lookup_delete_eq.
  - by rewrite lookup_insert_eq.
Qed.

(** ** A disabled hook, a hook without identifier *)

(** X13.  Run with [enabled] false and a non-empty identifier, the effect
    registers nothing and returns no cleanup; it unregisters whatever
    handler the singleton has under that identifier, leaves the other
    identifiers and the enabled flag alone.  Run without an identifier, or
    with the empty one, it does no more than instantiate the singleton. *)
Theorem disabled_or_anonymous_effect (i : nat) rp p :
  (∀ s, s ≠ EmptyString → valid_instance p →
     let manager := (getInstance p).1 in
     let r := registration_effect i (Some s) false rp p in
     r.2 = None ∧
     ask manager (has s) r.1 = Some false ∧
     (∀ id', id' ≠ s →
        ask manager (has id') r.1 = ask manager (has id') (getInstance p).2) ∧
     ask manager isEnabled r.1 = ask manager isEnabled (getInstance p).2) ∧
  (∀ enabled,
     registration_effect i None enabled rp p = ((getInstance p).2, None) ∧
     registration_effect i (Some EmptyString) enabled rp p = ((getInstance p).2, None)).
Proof.
  split.
  - intros s Hs Hv manager r. subst r manager.
    destruct (getInstance_lookup p Hv) as [_ [this Hthis]].
    unfold registration_effect.
    destruct (getInstance p) as [manager p0] eqn:E. simpl in *.
    apply truthy_Some in Hs. simpl in Hs. rewrite Hs. simpl.
    rewrite (ask_lookup _ _ _ _ Hthis). simpl.
    destruct (has s (this, env p0)) eqn:Hhas; simpl.
    + split; [done|]. split; [|split].
      * rewrite (ask_invoke_eq _ _ _ _ _ Hthis). by rewrite has_unregister_eq.
      * intros id' Hne.
        rewrite (ask_invoke_eq _ _ _ _ _ Hthis), (ask_lookup _ _ _ _ Hthis).
        by rewrite has_unregister_ne.
      * rewrite (ask_invoke_eq _ _ _ _ _ Hthis), (ask_lookup _ _ _ _ Hthis).
        unfold isEnabled. by rewrite enabled_unregister.
    + split; [done|]. rewrite (ask_lookup _ _ _ _ Hthis). by rewrite Hhas.
  - intros enabled. unfold registration_effect.
    by destruct (getInstance p) as [manager p0].
Qed.

(** ** The first effect: [initialContent] *)

(** X14.  A re-render with the [initialContent] of the last render leaves a local
    edit in place: the content written by [setContent] is what this render
    returns and what the handler reads.  A re-render with another
    [initialContent] overrides it: the handler reads the new initial content
    at once, and the render after that one returns it.  (With [useRefState]
    as the specification describes it.) *)
Theorem initialContent_reseeds (i : nat) id (init init' c : string) config app f rp :
  fibers app !! i = Some f → dep_initialContent f = init →
  let edited := hook_event (SetContent i c) app in
  let world_of (app : App U Obj) := world (env (process app)) in
  (let app1 := rerender i id init config edited in
   hook_content i (world_of app1) = c ∧
   getContent (hook_handler i rp) (world_of app1) = c) ∧
  (init' ≠ init →
   let app1 := rerender i id init' config edited in
   let app2 := rerender i id init' config app1 in
   getContent (hook_handler i rp) (world_of app1) = init' ∧
   hook_content i (world_of app2) = init' ∧
   getContent (hook_handler i rp) (world_of app2) = init').
Proof.
  intros Hf Hinit edited world_of.
  assert (∀ app0 f0 init0,
    fibers app0 !! i = Some f0 →
    fibers (rerender i id init0 config app0) !! i =
      Some {| dep_initialContent := init0; dep_id := id;
              dep_enabled := enabled_of config;
              fiber_cleanup :=
                match fibers (rerender i id init0 config app0) !! i with
                | Some f1 => fiber_cleanup f1 | None => None end |} ∧
    contentCell (hooks (world_of (rerender i id init0 config app0)) i) =
      (if bool_decide (dep_initialContent f0 = init0)
       then useRefState_next (contentCell (hooks (world_of app0) i))
       else setRefState init0
              (useRefState_next (contentCell (hooks (world_of app0) i))))) as Hre.
  { intros app0 f0 init0 Hf0. subst world_of. unfold rerender. rewrite Hf0.
    set (p0 := on_world (hook_render false i init0 config) (process app0)).
    assert (contentCell (hooks (world (env p0)) i) =
            useRefState_next (contentCell (hooks (world (env (process app0))) i))) as Hc0.
    { subst p0. simpl. by rewrite fn_lookup_insert. }
    destruct (bool_decide (dep_id f0 = id ∧ dep_enabled f0 = enabled_of config)).
    - destruct (bool_decide (dep_initialContent f0 = init0)); simpl.
      + rewrite lookup_insert_eq. split; [done|].
        by rewrite fn_lookup_insert.
      + rewrite lookup_insert_eq. split; [done|].
        rewrite !fn_lookup_insert. done.
    - match goal with
      | |- context [registration_effect ?i ?id ?en ?rp ?p] =>
          pose proof (world_registration_effect i id en rp p) as Hw;
          destruct (registration_effect i id en rp p) as [p' c']
      end.
      simpl in Hw. simpl. rewrite lookup_insert_eq. split; [done|]. rewrite Hw.
      destruct (bool_decide (dep_initialContent f0 = init0)).
      + rewrite world_effect_cleanup. exact Hc0.
      + simpl. rewrite fn_lookup_insert. f_equal.
        rewrite world_effect_cleanup. simpl. by rewrite fn_lookup_insert. }
  assert (fibers edited !! i = Some f) as Hfe by done.
  assert (contentCell (hooks (world_of edited) i) =
          setRefState c (contentCell (hooks (world_of app) i))) as Hce.
  { subst world_of edited. simpl. unfold hook_setContent.
    rewrite onContentChangeRef_setContentInternal.
    destruct (onContentChangeRef _); simpl; by rewrite fn_lookup_insert. }
  split.
  - intros app1. subst app1. destruct (Hre edited f init Hfe) as [_ Hcell].
    rewrite bool_decide_eq_true_2 in Hcell by done.
    unfold hook_content. simpl. rewrite Hcell, Hce. done.
  - intros Hne app1 app2.
    destruct (Hre edited f init' Hfe) as [Hf1 Hcell1].
    rewrite bool_decide_eq_false_2 in Hcell1 by congruence.
    fold app1 in Hf1, Hcell1.
    destruct (Hre app1 _ init' Hf1) as [_ Hcell2]. fold app2 in Hcell2.
    simpl in Hcell2. rewrite bool_decide_eq_true_2 in Hcell2 by done.
    unfold hook_content. simpl. rewrite Hcell2, Hcell1. done.
Qed.

End LifecycleFacts.

(** ** The edit log of the demo page *)

Lemma edit_logs_snoc cs c logs :
  edit_logs (cs ++ [c]) logs =
  handleContentChange c.1.1 c.1.2 c.2 (edit_logs cs logs).
Proof. unfold edit_logs. by rewrite foldl_snoc. Qed.

(** X15.  The edit log keeps the ten latest lines, the newest first: after the
    changes [cs] on a log of at most ten lines, it is the first ten of the
    lines of [cs], latest first, followed by the old log. *)
Theorem edit_log_keeps_last_ten (cs : list (jsstring * jsstring * jsstring))
    (logs : list jsstring) :
  length logs ≤ 10 →
  edit_logs cs logs =
    take 10 (reverse ((λ c, edit_line c.1.1 c.1.2 c.2) <$> cs) ++ logs) ∧
  length (edit_logs cs logs) ≤ 10.
Proof.
  intros Hlen.
  assert (edit_logs cs logs =
    take 10 (reverse ((λ c, edit_line c.1.1 c.1.2 c.2) <$> cs) ++ logs)) as Heq.
  { induction cs as [|c cs IH] using rev_ind.
    - simpl. by rewrite take_ge.
    - rewrite edit_logs_snoc, IH, fmap_snoc, reverse_snoc.
      unfold handleContentChange. rewrite take_take. done. }
  split; [done|]. rewrite Heq, length_take. lia.
Qed.

(** X16.  The preview of a log line is the content itself when that has at most
    50 code units; otherwise it is its first 50 code units followed by three
    dots, 53 code units in all.  It never has more than 53, and always
    starts as the content does. *)
Theorem edit_preview_bounds (content : jsstring) :
  length (edit_preview content) ≤ 53 ∧
  (length content ≤ 50 → edit_preview content = content) ∧
  (50 < length content →
     length (edit_preview content) = 53 ∧
     drop 50 (edit_preview content) = [46; 46; 46]%N) ∧
  take 50 (edit_preview content) = take 50 content.
Proof.
  unfold edit_preview. case_bool_decide as H.
  - assert (length (take 50 content) = 50) as Hl by (rewrite length_take; lia).
    split; [rewrite length_app, Hl; simpl; lia|].
    split; [lia|]. split.
    + intros _. split; [rewrite length_app, Hl; simpl; lia|].
      by rewrite drop_app_length'.
    + by rewrite take_app_length'.
  - rewrite app_nil_r, take_ge by lia.
    split; [lia|]. split; [done|]. split; [lia|]. apply take_ge. lia.
Qed.

Section InstanceFacts.

Context {W Obj : Type}.
Implicit Types (p : Process W Obj).

(** X17.  [getInstance()] is a singleton: once it has returned an object, it
    returns the same object again and builds nothing more, whatever methods
    are called on any manager object in between.  When it does build the
    object, that is a new manager at a new address, and the objects built
    before are untouched. *)
Theorem getInstance_is_singleton p :
  valid_instance p →
  let a := (getInstance p).1 in
  let p1 := (getInstance p).2 in
  getInstance p1 = (a, p1) ∧
  is_Some (heap p1 !! a) ∧
  (∀ b (method : St W Obj → St W Obj),
     getInstance (invoke b method p1) = (a, invoke b method p1)) ∧
  (instance p = None →
     heap p1 !! a = Some new_manager ∧ heap p !! a = None ∧
     ∀ b this, heap p !! b = Some this → heap p1 !! b = Some this).
Proof.
  intros Hv a p1.
  destruct (getInstance_lookup p Hv) as [Hi Hs]. fold a p1 in Hi, Hs.
  split; [|split; [done|split]].
  - unfold getInstance. by rewrite Hi.
  - intros b method. unfold getInstance. by rewrite instance_invoke, Hi.
  - intros Hnone. subst a p1. unfold getInstance. rewrite Hnone. simpl.
    split; [|split].
    + by rewrite lookup_app_r, Nat.sub_diag by done.
    + by apply lookup_ge_None.
    + intros b this Hb. by apply lookup_app_l_Some.
Qed.

End InstanceFacts.

(** ** These properties at concrete inputs *)

Lemma hooks_page_not_connected : ¬ connected hooks_page.
Proof. intros [k Hk]. by destruct k. Qed.

Lemma unregister_unknown_noop_witness :
  let st := calls [SetEnabled true; Register "a" plain_handler] (new_manager, page) in
  unregister "zz" st = st ∧
  unregister "zz" (new_manager (Obj:=bool), page) = (new_manager, page).
Proof.
  intros st. split.
  - apply (unregister_unknown_noop "zz" st).
    + apply calls_inv, bridge_inv_new, page_not_connected.
    + reflexivity.
  - apply (unregister_unknown_noop "zz" (new_manager, page)).
    + apply bridge_inv_new, page_not_connected.
    + reflexivity.
Defined.

Lemma has_after_register_unregister_witness :
  has "a" (unregister "c" (manager_ac, page_connected)) =
    has "a" (manager_ac, page_connected) ∧
  has "c" (unregister "c" (manager_ac, page_connected)) = false.
Proof.
  destruct (has_after_register_unregister "c" "a" plain_handler true
              (manager_ac, page_connected)) as (_ & Hgone & Hother & _).
  split; [|exact Hgone].
  apply Hother. discriminate.
Defined.

Lemma connection_is_shared_witness :
  (register "d" plain_handler (manager_ac, page_connected)).2 = page_connected ∧
  (unregister "a" (manager_ac, page_connected)).2 = page_connected.
Proof.
  destruct (connection_is_shared "d" plain_handler (manager_ac, page_connected) 0 eq_refl)
    as [[Hreg _] _].
  destruct (connection_is_shared "a" plain_handler (manager_ac, page_connected) 0 eq_refl)
    as [_ Hun].
  split; [exact Hreg|].
  apply (Hun "c"); [discriminate|reflexivity].
Defined.

Lemma connection_invariant_under_all_events_witness :
  let st := events stringify_bool
              (take 5 [Method (SetEnabled true); Method (Register "a" plain_handler);
                       HostQuery "a"; HostPreview (SchemaString "x") "preview";
                       CallTeardown DefaultTeardown])
              (new_manager, page) in
  (connected st.2 ↔ isEnabled st = true ∧ 0 < getRegistrySize st) ∧
  (∀ k, bridge_open st.2 k ↔ cleanup st.1 = Some k).
Proof.
  apply (connection_invariant_under_all_events stringify_bool page
           [Method (SetEnabled true); Method (Register "a" plain_handler);
            HostQuery "a"; HostPreview (SchemaString "x") "preview";
            CallTeardown DefaultTeardown] 5).
  exact page_not_connected.
Defined.

Lemma preview_root_stays_live_witness :
  let st := events stringify_bool
              [HostPreview (SchemaString "x") "preview"; CallTeardown DefaultTeardown]
              (new_manager, page) in
  let st' := (createDefaultPreview stringify_bool (SchemaObject true) "preview" st).1 in
  ∃ root x,
    previewRoot st'.1 = Some root ∧ roots st'.2 !! root = Some x ∧
    root_unmounted x = false ∧ root_view x = Some (preview_element "true").
Proof.
  intros st.
  destruct (preview_root_stays_live stringify_bool page
              [HostPreview (SchemaString "x") "preview"; CallTeardown DefaultTeardown])
    as [_ H].
  apply (H (SchemaObject true) "preview"). set_solver.
Defined.

Lemma preview_follows_last_query_witness :
  (bridge_renderPreview stringify_bool (SchemaString "x") "preview"
     (getSchema "c" (manager_off, page)).1).2 =
    Some (HandlerTeardown (λ _, EmptyString)) ∧
  bridge_renderPreview stringify_bool (SchemaString "x") "preview"
    (getSchema "zz" (manager_ac, page_connected)).1 =
    createDefaultPreview stringify_bool (SchemaString "x") "preview"
      (getSchema "zz" (manager_ac, page_connected)).1.
Proof.
  split.
  - destruct (preview_follows_last_query stringify_bool "c" (SchemaString "x") "preview"
                (manager_off, page)) as [H _].
    rewrite (H custom_handler (λ _ containerId _, (containerId, Some (λ _, EmptyString))));
      [reflexivity|reflexivity|reflexivity|discriminate].
  - apply (preview_follows_last_query stringify_bool "zz" (SchemaString "x") "preview"
             (manager_ac, page_connected)).
    reflexivity.
Defined.

Lemma stale_unregister_after_destroy_witness :
  invoke 0 (unregister "b") (destroy (process app_b)) = destroy (process app_b).
Proof.
  eapply (stale_unregister_after_destroy (process app_b) 0 _ "b"); reflexivity.
Defined.

Lemma singleton_connection_invariant_witness :
  let p := process (app_events
                      (take 3 [OfHook (Mount 0 (Some "b") "hello" None); Destroy;
                               OfHook (Unmount 0)])
                      (new_app (Obj:=bool) hooks_page)) in
  connected (env p) ↔
    ∃ a this, instance p = Some a ∧ heap p !! a = Some this ∧
              enabled this = true ∧ 0 < size (registry this).
Proof.
  intros p.
  apply (singleton_connection_invariant hooks_page
           [OfHook (Mount 0 (Some "b") "hello" None); Destroy; OfHook (Unmount 0)] 3).
  exact hooks_page_not_connected.
Defined.

Lemma unmount_unregisters_witness :
  let app' := unmount_hook 0
                (mount 0 (Some "b") "hello" None (new_app (Obj:=bool) hooks_page)) in
  ∃ manager,
    instance (process app') = Some manager ∧
    ask manager (has "b") (process app') = Some false ∧
    ask manager isEnabled (process app') = Some true.
Proof.
  apply (proj2 (unmount_unregisters 0 (new_app (Obj:=bool) hooks_page)) "b" "hello" None).
  - discriminate.
  - reflexivity.
  - intros a [=].
Defined.

Lemma rerender_with_new_id_witness :
  let app' := rerender 0 (Some "b2") "hello" (Some logging_config) app_b in
  ask 0 (has "b") (process app') = Some false ∧
  ask 0 (has "b2") (process app') = Some true.
Proof.
  intros app'.
  edestruct (rerender_with_new_id 0 "b" "b2" "hello" (Some logging_config) app_b)
    as (H1 & H2 & _);
    [reflexivity|reflexivity|reflexivity|reflexivity|reflexivity
    |discriminate|discriminate|reflexivity|].
  split; [exact H1|exact H2].
Defined.

Lemma disabled_or_anonymous_effect_witness :
  let r := registration_effect (Obj:=bool) 0 (Some "b") false None (process app_b) in
  r.2 = None ∧ ask 0 (has "b") r.1 = Some false.
Proof.
  intros r.
  destruct (disabled_or_anonymous_effect (Obj:=bool) 0 None (process app_b)) as [H _].
  destruct (H "b") as (H1 & H2 & _).
  - discriminate.
  - intros a [= <-]. vm_compute. eauto.
  - split; [exact H1|exact H2].
Defined.

Lemma initialContent_reseeds_witness :
  let edited := hook_event (SetContent 0 "world") app_b in
  hook_content 0 (world (env (process
    (rerender 0 (Some "b") "hello" (Some logging_config) edited)))) = "world" ∧
  getContent (hook_handler (Obj:=bool) 0 None) (world (env (process
    (rerender 0 (Some "b") "bye" (Some logging_config) edited)))) = "bye".
Proof.
  intros edited.
  edestruct (initialContent_reseeds (Obj:=bool) 0 (Some "b") "hello" "bye" "world"
               (Some logging_config) app_b) as [[H1 _] H2];
    [reflexivity|reflexivity|].
  split; [exact H1|].
  destruct H2 as (H2 & _); [discriminate|]. exact H2.
Defined.

Lemma edit_log_keeps_last_ten_witness :
  edit_logs [([49], [50], [51]); ([52], [53], [54])]%N [] =
    [edit_line [52] [53] [54]; edit_line [49] [50] [51]]%N.
Proof.
  apply (edit_log_keeps_last_ten [([49], [50], [51]); ([52], [53], [54])]%N []).
  simpl. lia.
Defined.

Lemma edit_preview_bounds_witness :
  edit_preview [104; 105]%N = [104; 105]%N ∧
  length (edit_preview (replicate 60 97%N)) = 53.
Proof.
  split.
  - destruct (edit_preview_bounds [104; 105]%N) as (_ & H & _).
    apply H. simpl. lia.
  - destruct (edit_preview_bounds (replicate 60 97%N)) as (_ & _ & H & _).
    apply H. rewrite length_replicate. lia.
Defined.

Lemma getInstance_is_singleton_witness :
  let p1 := (getInstance (new_process (Obj:=bool) page)).2 in
  getInstance p1 = (0, p1) ∧
  getInstance (invoke 0 (register "a" plain_handler) p1) =
    (0, invoke 0 (register "a" plain_handler) p1).
Proof.
  intros p1.
  destruct (getInstance_is_singleton (new_process (Obj:=bool) page)) as (H1 & _ & H2 & _).
  - intros a [=].
  - split; [exact H1|]. apply (H2 0 (register "a" plain_handler)).
Defined.
